(** * Signaling relay and TURN token workers

    A shallow embedding of the two Cloudflare workers of the repository:

    - [realtime-worker/src/index.ts]: the room dispatcher ([default.fetch])
      and the per-room relay actor ([RoomDO]);
    - the TURN token worker ([default.fetch], [splitCsv], [hmacSha1Base64]).

    JavaScript strings are modelled as [string], that is as sequences of
    code units below 256.  The strings the relay inspects (URL path names,
    the room code) are ASCII by construction of [URL.pathname]. *)

From Stdlib Require Import ZArith Ascii String DecimalString.
From stdpp Require Import gmap strings list fin_maps.

Local Open Scope string_scope.

(** ** JavaScript primitives used by both workers *)

Module Js.

(** The code unit of the double quote, U+0022. *)
Definition dq : ascii := Ascii.ascii_of_nat 34.
(** The code unit of the backslash, U+005C. *)
Definition bsl : ascii := Ascii.ascii_of_nat 92.

Definition code (c : ascii) : nat := Ascii.nat_of_ascii c.

Definition is_upper (c : ascii) : bool := (65 <=? code c)%nat && (code c <=? 90)%nat.
Definition is_lower (c : ascii) : bool := (97 <=? code c)%nat && (code c <=? 122)%nat.
Definition is_digit (c : ascii) : bool := (48 <=? code c)%nat && (code c <=? 57)%nat.

Definition upper_char (c : ascii) : ascii :=
  if is_lower c then Ascii.ascii_of_nat (code c - 32) else c.
Definition lower_char (c : ascii) : ascii :=
  if is_upper c then Ascii.ascii_of_nat (code c + 32) else c.

Fixpoint map_chars (f : ascii -> ascii) (s : string) : string :=
  match s with
  | EmptyString => EmptyString
  | String c r => String (f c) (map_chars f r)
  end.

(** [String.prototype.toUpperCase] and [toLowerCase], as they act on ASCII
    letters.  The relay upper-cases path names only, which are ASCII, and
    lower-cases a header value only to compare it with an ASCII word, which
    no code unit below 256 outside [A-Z] can turn into. *)
Definition toUpperCase (s : string) : string := map_chars upper_char s.
Definition toLowerCase (s : string) : string := map_chars lower_char s.

(** [x || d] for a possibly absent string: the empty string is falsy. *)
Definition or_default (x : option string) (d : string) : string :=
  match x with
  | Some (String c r) => String c r
  | _ => d
  end.

(** [s.split(sep)] for a one-character separator: never an empty array. *)
Fixpoint split (sep : ascii) (s : string) : list string :=
  match s with
  | EmptyString => [EmptyString]
  | String c r =>
      if Ascii.eqb c sep then EmptyString :: split sep r
      else match split sep r with
           | seg :: segs => String c seg :: segs
           | [] => [String c EmptyString]
           end
  end.

(** [arr.pop()]: the last element, [undefined] on an empty array. *)
Definition pop (l : list string) : option string := last l.

(** White space as [String.prototype.trim] and [parseInt] see it, among
    the code units below 256: TAB, LF, VT, FF, CR, SP and NBSP. *)
Definition is_space (c : ascii) : bool :=
  let n := code c in
  ((9 <=? n)%nat && (n <=? 13)%nat) || (n =? 32)%nat || (n =? 160)%nat.

Fixpoint trimStart (s : string) : string :=
  match s with
  | String c r => if is_space c then trimStart r else s
  | EmptyString => EmptyString
  end.

Fixpoint trimEnd (s : string) : string :=
  match s with
  | EmptyString => EmptyString
  | String c r =>
      match trimEnd r with
      | EmptyString => if is_space c then EmptyString else String c EmptyString
      | r' => String c r'
      end
  end.

Definition trim (s : string) : string := trimEnd (trimStart s).

(** JSON values, as far as the workers build them. *)
#[warnings="-register-all"]
Inductive json : Type :=
| JStr (s : string)
| JArr (items : list json)
| JObj (fields : list (string * json)).

Definition hex_digit (n : nat) : ascii :=
  Ascii.ascii_of_nat (if (n <? 10)%nat then 48 + n else 87 + n).

(** [QuoteJSONString] on one code unit. *)
Definition escape_char (c : ascii) : string :=
  let n := code c in
  if Ascii.eqb c dq then String bsl (String dq EmptyString)
  else if Ascii.eqb c bsl then String bsl (String bsl EmptyString)
  else if (n =? 8)%nat then String bsl "b"
  else if (n =? 9)%nat then String bsl "t"
  else if (n =? 10)%nat then String bsl "n"
  else if (n =? 12)%nat then String bsl "f"
  else if (n =? 13)%nat then String bsl "r"
  else if (n <? 32)%nat then
    String bsl ("u00" ++ String (hex_digit (n / 16)) (String (hex_digit (n mod 16)) EmptyString))
  else String c EmptyString.

Fixpoint escape (s : string) : string :=
  match s with
  | EmptyString => EmptyString
  | String c r => escape_char c ++ escape r
  end.

Definition quote (s : string) : string :=
  String dq (escape s ++ String dq EmptyString).

Fixpoint join_with (sep : string) (l : list string) : string :=
  match l with
  | [] => EmptyString
  | [x] => x
  | x :: r => x ++ sep ++ join_with sep r
  end.

(** [JSON.stringify] without indentation. *)
Fixpoint stringify (j : json) : string :=
  match j with
  | JStr s => quote s
  | JArr items => "[" ++ join_with "," (map stringify items) ++ "]"
  | JObj fields =>
      "{" ++ join_with "," (map (fun kv => quote (fst kv) ++ ":" ++ stringify (snd kv)) fields) ++ "}"
  end.

(** Wire texts are written below with an apostrophe wherever the JSON
    text has a double quote. *)
Definition wire (template : string) : string :=
  map_chars (fun c => if Ascii.eqb c "'"%char then dq else c) template.

End Js.

(** ** The relay worker: [realtime-worker/src/index.ts] *)

Module Relay.
Import Js.
Local Open Scope list_scope.

(** A WebSocket object; two objects are the same object ([===]) when their
    numbers agree.  A [WebSocketPair] is numbered as one: the actor keeps
    its server end, the response carries its client end. *)
Definition sock : Type := nat.

(** [evt.data]: a string for a text frame, an [ArrayBuffer] for a binary one. *)
Inductive WsData : Type :=
| TextData (s : string)
| BinaryData (bytes : list ascii).

(** What a call of [ws.send(data)] did: the frame went out, or the call
    raised. *)
Inductive Effect : Type :=
| Delivered (to : sock) (data : WsData)
| Raised (to : sock) (data : WsData).

Definition effect_target (e : Effect) : sock :=
  match e with Delivered t _ | Raised t _ => t end.

(** The local [role] of [RoomDO.fetch]. *)
Inductive Role : Type := Host | Join | Spectator.

#[global] Instance Role_eq_dec : EqDecision Role.
Proof. solve_decision. Defined.

Definition role_name (r : Role) : string :=
  match r with Host => "host" | Join => "join" | Spectator => "spectator" end.

Record Request : Type := mkRequest {
  pathname : string;          (* new URL(request.url).pathname *)
  upgrade : option string;    (* request.headers.get("Upgrade") *)
  origin : option string;     (* request.headers.get("Origin") *)
}.

Record Env : Type := mkEnv {
  ALLOWED_ORIGIN : option string;
}.

Record Response : Type := mkResponse {
  status : nat;
  body : option string;
  webSocket : option sock;
}.

(** [bad(msg, status)]. *)
Definition bad (msg : string) (st : nat) : Response :=
  {| status := st; body := Some msg; webSocket := None |}.

(** The fields of a [RoomDO] instance together with what the runtime keeps
    for it: the listeners registered on accepted sockets (each closure
    captures its [server] and [role]), the sockets on which [send] raises,
    and the number of pairs created so far. *)
Record Room : Type := mkRoom {
  host : option sock;
  join : option sock;
  listeners : gmap sock Role;
  closed : gset sock;
  created : nat;
}.

Definition fresh : Room :=
  {| host := None; join := None; listeners := ∅; closed := ∅; created := 0 |}.

Definition set_host (h : option sock) (st : Room) : Room :=
  {| host := h; join := join st; listeners := listeners st;
     closed := closed st; created := created st |}.
Definition set_join (j : option sock) (st : Room) : Room :=
  {| host := host st; join := j; listeners := listeners st;
     closed := closed st; created := created st |}.
Definition set_closed (c : gset sock) (st : Room) : Room :=
  {| host := host st; join := join st; listeners := listeners st;
     closed := c; created := created st |}.

(** *** Actions: state, a log of sends, and exceptions *)

Inductive Outcome (A : Type) : Type :=
| Ok (a : A)
| Throw.
Arguments Ok {A} a.
Arguments Throw {A}.

Definition Act (A : Type) : Type := Room -> Outcome A * Room * list Effect.

Definition ret {A} (a : A) : Act A := fun st => (Ok a, st, []).

Definition bind {A B} (m : Act A) (k : A -> Act B) : Act B :=
  fun st =>
    match m st with
    | (Ok a, st1, t1) =>
        match k a st1 with
        | (o, st2, t2) => (o, st2, t1 ++ t2)
        end
    | (Throw, st1, t1) => (Throw, st1, t1)
    end.

Notation "'let*' x ':=' m 'in' k" := (bind m (fun x => k))
  (at level 10, x binder, m at level 200, k at level 200).
Notation "'do' m 'then' k" := (bind m (fun _ => k))
  (at level 10, m at level 200, k at level 200).

(** [try { m } catch { h }]. *)
Definition try_catch (m : Act unit) (h : Act unit) : Act unit :=
  fun st =>
    match m st with
    | (Ok a, st1, t1) => (Ok a, st1, t1)
    | (Throw, st1, t1) =>
        match h st1 with
        | (o, st2, t2) => (o, st2, t1 ++ t2)
        end
    end.

(** [try { m } catch {}]. *)
Definition attempt (m : Act unit) : Act unit := try_catch m (ret tt).

Definition get : Act Room := fun st => (Ok st, st, []).
Definition modify (f : Room -> Room) : Act unit := fun st => (Ok tt, f st, []).

(** [target.send(data)]: raises on a socket that is closing or closed. *)
Definition send (target : sock) (data : WsData) : Act unit :=
  fun st =>
    if decide (target ∈ closed st) then (Throw, st, [Raised target data])
    else (Ok tt, st, [Delivered target data]).

(** [new WebSocketPair()] followed by [server.accept()].  [gone] tells
    whether the client has already hung up, so that sending to the new
    socket raises. *)
Definition accept_pair (gone : bool) : Act sock :=
  fun st =>
    let server := created st in
    (Ok server,
     {| host := host st; join := join st; listeners := listeners st;
        closed := if gone then {[server]} ∪ closed st else closed st;
        created := S server |},
     []).

(** [server.addEventListener(...)] for the three listeners of one socket. *)
Definition addEventListeners (server : sock) (role : Role) : Act unit :=
  modify (fun st =>
    {| host := host st; join := join st;
       listeners := <[server := role]> (listeners st);
       closed := closed st; created := created st |}).

(** *** The relay actor, [RoomDO] *)

(** [request.headers.get("Upgrade")?.toLowerCase() !== "websocket"]. *)
Definition not_websocket (req : Request) : bool :=
  match upgrade req with
  | Some v => negb (String.eqb (toLowerCase v) "websocket")
  | None => true
  end.

(** [url.pathname.split("/").pop()], the empty string if that is falsy,
    in upper case. *)
Definition room_of (req : Request) : string :=
  toUpperCase (or_default (pop (split "/"%char (pathname req))) EmptyString).

Definition ready (role : Role) (room : string) : WsData :=
  TextData (stringify (JObj [("t", JStr "ready"); ("role", JStr (role_name role));
                             ("room", JStr room)])).
Definition peer_joined : WsData :=
  TextData (stringify (JObj [("t", JStr "peer"); ("state", JStr "joined")])).
Definition peer_left : WsData :=
  TextData (stringify (JObj [("t", JStr "peer"); ("state", JStr "left")])).

(** [String(evt.data)] on an [ArrayBuffer]. *)
Definition String_of_buffer (bytes : list ascii) : string := "[object ArrayBuffer]".

(** The ["message"] listener registered for [server] with role [role]. *)
Definition on_message (role : Role) (data : WsData) : Act unit :=
  let* st := get in
  let target := if decide (role = Host) then join st else host st in
  match target with
  | None => ret tt
  | Some target =>
      let payload := match data with
                     | TextData s => s
                     | BinaryData b => String_of_buffer b
                     end in
      attempt (send target (TextData payload))
  end.

(** [cleanup], the ["close"] and ["error"] listener of [server]. *)
Definition cleanup (role : Role) (server : sock) : Act unit :=
  do (let* st := get in
      if bool_decide (role = Host) && bool_decide (host st = Some server)
      then modify (set_host None) else ret tt) then
  do (let* st := get in
      if bool_decide (role = Join) && bool_decide (join st = Some server)
      then modify (set_join None) else ret tt) then
  let* st := get in
  let peer := if decide (role = Host) then join st else host st in
  match peer with
  | Some peer => attempt (send peer peer_left)
  | None => ret tt
  end.

(** [this.host ? (this.join ? "spectator" : "join") : "host"]. *)
Definition role_for (st : Room) : Role :=
  match host st with
  | Some _ => match join st with Some _ => Spectator | None => Join end
  | None => Host
  end.

(** [RoomDO.fetch]. *)
Definition RoomDO_fetch (req : Request) (gone : bool) : Act Response :=
  if not_websocket req then ret (bad "Expected websocket" 426)
  else
    let room := room_of req in
    let* st := get in
    let role := role_for st in
    if decide (role = Spectator) then ret (bad "Room is full" 409)
    else
      let* server := accept_pair gone in
      let client := server in
      do (if decide (role = Host) then modify (set_host (Some server))
          else modify (set_join (Some server))) then
      do addEventListeners server role then
      do try_catch
           (do send server (ready role room) then
            let* st := get in
            match host st, join st with
            | Some h, Some j =>
                do attempt (send h peer_joined) then
                attempt (send j peer_joined)
            | _, _ => ret tt
            end)
           (cleanup role server) then
      ret {| status := 101; body := None; webSocket := Some client |}.

(** *** Events reaching one actor *)

(** [Connect req gone] is a call of [fetch] on the actor; [gone] tells that
    the client hung up before the actor's first [send]. *)
Inductive Event : Type :=
| Connect (req : Request) (gone : bool)   (* stub.fetch(request) *)
| Message (from : sock) (data : WsData)   (* "message" on an accepted socket *)
| Close (from : sock)                     (* "close" on an accepted socket *)
| Error (from : sock)                     (* "error" on an accepted socket *)
| Hangup (s : sock).                      (* the transport of [s] goes away *)

(** A socket stops taking frames: [send] raises on it from now on. *)
Definition shut (s : sock) : Act unit :=
  modify (fun st => set_closed ({[s]} ∪ closed st) st).

(** Dispatch of an event to the listener registered for it.  Socket events
    only come from sockets the actor accepted, so an event of any other
    socket number does nothing.  A socket that closed or failed takes no
    more frames. *)
Definition handle (ev : Event) : Act (option Response) :=
  match ev with
  | Connect req gone => let* r := RoomDO_fetch req gone in ret (Some r)
  | Message from data =>
      let* st := get in
      match listeners st !! from with
      | Some role => do on_message role data then ret None
      | None => ret None
      end
  | Close from | Error from =>
      let* st := get in
      match listeners st !! from with
      | Some role => do shut from then do cleanup role from then ret None
      | None => ret None
      end
  | Hangup s =>
      let* st := get in
      match listeners st !! s with
      | Some _ => do shut s then ret None
      | None => ret None
      end
  end.

Definition step (st : Room) (ev : Event) : Room := snd (fst (handle ev st)).
Definition emitted (st : Room) (ev : Event) : list Effect := snd (handle ev st).
Definition answer (st : Room) (ev : Event) : Outcome (option Response) :=
  fst (fst (handle ev st)).

(** The actor handles its events one at a time, in arrival order. *)
Definition run (evs : list Event) (st : Room) : Room := foldl step st evs.

Fixpoint transcript (evs : list Event) (st : Room) : list Effect :=
  match evs with
  | [] => []
  | ev :: rest => emitted st ev ++ transcript rest (step st ev)
  end.

Definition reachable (st : Room) : Prop := ∃ evs, st = run evs fresh.

(** *** The dispatcher, [default.fetch] *)

Definition code_char (c : ascii) : bool :=
  is_upper c || is_lower c || is_digit c || Ascii.eqb c "_" || Ascii.eqb c "-".

Fixpoint all_chars (p : ascii -> bool) (s : string) : bool :=
  match s with
  | EmptyString => true
  | String c r => p c && all_chars p r
  end.

Fixpoint strip_prefix (p s : string) : option string :=
  match p, s with
  | EmptyString, _ => Some s
  | String a p', String b s' => if Ascii.eqb a b then strip_prefix p' s' else None
  | String _ _, EmptyString => None
  end.

(** [url.pathname.match(/^\/room\/([A-Za-z0-9_-]{4,20})$/)]: the capture
    group [m[1]] when the path matches. *)
Definition match_room (path : string) : option string :=
  match strip_prefix "/room/" path with
  | Some rest =>
      if (4 <=? String.length rest)%nat && (String.length rest <=? 20)%nat
         && all_chars code_char rest
      then Some rest else None
  | None => None
  end.

(** The instances of the [ROOM] namespace, by the name given to
    [idFromName]; an instance comes to life on its first reference. *)
Definition instance (w : gmap string Room) (name : string) : Room :=
  default fresh (w !! name).

(** [allowed !== "*" && origin !== allowed], with [origin] the Origin
    header or the empty string and [allowed] the configured origin or
    ["*"]. *)
Definition forbidden (env : Env) (req : Request) : bool :=
  let origin := or_default (origin req) EmptyString in
  let allowed := or_default (ALLOWED_ORIGIN env) "*" in
  negb (String.eqb allowed "*") && negb (String.eqb origin allowed).

(** [default.fetch].  The frames sent are labelled with the instance that
    sent them. *)
Definition default_fetch (env : Env) (req : Request) (gone : bool)
    (w : gmap string Room) : Response * gmap string Room * list (string * Effect) :=
  if String.eqb (pathname req) "/health"
  then ({| status := 200; body := Some "ok"; webSocket := None |}, w, [])
  else
    match match_room (pathname req) with
    | None => (bad "Not found" 404, w, [])
    | Some m1 =>
        if not_websocket req then (bad "Expected websocket" 426, w, [])
        else
          if forbidden env req then (bad "Forbidden" 403, w, [])
          else
            let code := toUpperCase m1 in
            match RoomDO_fetch req gone (instance w code) with
            | (Ok resp, inst, tr) => (resp, <[code := inst]> w, map (pair code) tr)
            | (Throw, inst, tr) =>
                (bad "Internal Server Error" 500, <[code := inst]> w, map (pair code) tr)
            end
    end.

(** *** Closed forms of the handlers

    Each handler is an action; the definitions below name the result of
    each one, and the lemmas on them give it as a triple in one piece. *)

Definition sent (st : Room) (t : sock) (d : WsData) : Effect :=
  if decide (t ∈ closed st) then Raised t d else Delivered t d.

Definition vacate (role : Role) (server : sock) (st : Room) : Room :=
  match role with
  | Host => if bool_decide (host st = Some server) then set_host None st else st
  | Join => if bool_decide (join st = Some server) then set_join None st else st
  | Spectator => st
  end.

Definition farewell (role : Role) (st : Room) : list Effect :=
  match (if decide (role = Host) then join st else host st) with
  | Some p => [sent st p peer_left]
  | None => []
  end.

Definition payload_of (d : WsData) : string :=
  match d with TextData s => s | BinaryData b => String_of_buffer b end.

Definition seat (role : Role) (gone : bool) (st : Room) : Room :=
  let server := created st in
  {| host := if decide (role = Host) then Some server else host st;
     join := if decide (role = Host) then join st else Some server;
     listeners := <[server := role]> (listeners st);
     closed := if gone then {[server]} ∪ closed st else closed st;
     created := S server |}.

Definition greet (st : Room) : list Effect :=
  match host st, join st with
  | Some h, Some j => [sent st h peer_joined; sent st j peer_joined]
  | _, _ => []
  end.

Definition switching (s : sock) : Response :=
  {| status := 101; body := None; webSocket := Some s |}.

(** *** Invariants of the actor *)

(** The slot of a role, and the slot a listener of that role forwards to. *)
Definition slot (r : Role) (st : Room) : option sock :=
  match r with Host => host st | Join => join st | Spectator => None end.
Definition target_of (r : Role) (st : Room) : option sock :=
  if decide (r = Host) then join st else host st.

(** The connections the actor accepted and that are still open. *)
Definition live (st : Room) : gset sock := dom (listeners st) ∖ closed st.

Record wf (st : Room) : Prop := mk_wf {
  wf_host : ∀ s, host st = Some s → listeners st !! s = Some Host;
  wf_join : ∀ s, join st = Some s → listeners st !! s = Some Join;
  wf_live : ∀ s r, listeners st !! s = Some r → s ∉ closed st → slot r st = Some s;
  wf_created : ∀ s, is_Some (listeners st !! s) → s < created st;
  wf_closed : ∀ s, s ∈ closed st → s < created st;
}.

(** The state after [shut s]. *)
Definition shut_state (s : sock) (st : Room) : Room :=
  set_closed ({[s]} ∪ closed st) st.

(** The state after the listeners of a close or error event of [s]. *)
Definition depart (s : sock) (st : Room) : Room :=
  match listeners st !! s with
  | Some r => vacate r s (shut_state s st)
  | None => st
  end.

(** The connections held in the two slots. *)
Definition occupants (st : Room) : gset sock :=
  from_option singleton ∅ (host st) ∪ from_option singleton ∅ (join st).


(** *** Sample inputs *)

Definition upgrade_to (path : string) : Request :=
  {| pathname := path; upgrade := Some "websocket"; origin := None |}.

(** Connections A and B paired in room TEST1. *)
Definition paired : Room :=
  run [Connect (upgrade_to "/room/TEST1") false;
       Connect (upgrade_to "/room/TEST1") false] fresh.

(** Connection A accepted as host, failed, and replaced by connection C. *)
Definition replaced : Room :=
  run [Connect (upgrade_to "/room/TEST1") false; Error 0;
       Connect (upgrade_to "/room/TEST1") false] fresh.


(** Connections A and B paired, then A gone: only the join slot is held. *)
Definition joiner_alone : Room := run [Close 0] paired.

(** A connect whose client is still there is accepted in state [st] and
    given role [r]: the answer is 101 with the client end of the new pair,
    the first frame sent is [ready] with role [r] to the new socket, and
    the new socket holds the slot of [r] afterwards. *)
Definition assigned (st : Room) (req : Request) (r : Role) : Prop :=
  answer st (Connect req false) = Ok (Some (switching (created st)))
  ∧ hd_error (emitted st (Connect req false))
    = Some (Delivered (created st) (ready r (room_of req)))
  ∧ slot r (step st (Connect req false)) = Some (created st).


(** *** Room codes, declaratively *)

(** The character class [[A-Za-z0-9_-]], by code unit. *)
Definition code_unit_ok (n : nat) : Prop :=
  (65 <= n <= 90 ∨ 97 <= n <= 122 ∨ 48 <= n <= 57 ∨ n = 95 ∨ n = 45)%nat.

Fixpoint each_char (P : ascii -> Prop) (s : string) : Prop :=
  match s with
  | EmptyString => True
  | String c r => P c ∧ each_char P r
  end.

(** A string matching [^[A-Za-z0-9_-]{4,20}$]. *)
Definition RoomCode (c : string) : Prop :=
  (4 <= String.length c <= 20)%nat ∧ each_char (fun x => code_unit_ok (code x)) c.

(** Two characters that are equal or are the two cases of one letter. *)
Definition same_letter (x y : ascii) : Prop :=
  x = y
  ∨ (is_upper x = true ∧ code y = (code x + 32)%nat)
  ∨ (is_upper y = true ∧ code x = (code y + 32)%nat).

(** Two strings that differ only in letter case. *)
Fixpoint differ_only_in_case (a b : string) : Prop :=
  match a, b with
  | EmptyString, EmptyString => True
  | String x a', String y b' => same_letter x y ∧ differ_only_in_case a' b'
  | _, _ => False
  end.


(** Both slots of a room are held. *)
Definition full (st : Room) : Prop := is_Some (host st) ∧ is_Some (join st).

(** A path of the shape [/room/{code}]. *)
Definition room_path (path : string) : Prop :=
  ∃ c, path = ("/room/" ++ c)%string ∧ RoomCode c.

(** The status of the answer of the worker. *)
Definition status_of (env : Env) (req : Request) (gone : bool)
    (w : gmap string Room) : nat :=
  status (fst (fst (default_fetch env req gone w))).


(** *** Sample inputs, continued *)

(** A and B paired, A failed, C took the host slot: connection 0 is stale. *)
Definition host_replaced : Room :=
  run [Error 0; Connect (upgrade_to "/room/TEST1") false] paired.

(** The events of one sender sending a burst of frames. *)
Definition burst (from : sock) (frames : list WsData) : list Event :=
  map (Message from) frames.

End Relay.

(** ** The TURN token worker *)

Module Turn.
Import Js.
Local Open Scope list_scope.

(** *** Platform primitives: [TextEncoder], [crypto.subtle], [btoa] *)

(** [new TextEncoder().encode(s)]: UTF-8, on code units below 256. *)
Definition encode_char (c : ascii) : list Z :=
  let n := Z.of_nat (code c) in
  if (n <? 128)%Z then [n]
  else [Z.lor 192 (Z.shiftr n 6); Z.lor 128 (Z.land n 63)].

Fixpoint encode (s : string) : list Z :=
  match s with
  | EmptyString => []
  | String c r => encode_char c ++ encode r
  end.

Definition mask32 (x : Z) : Z := Z.land x 4294967295.
Definition add32 (x y : Z) : Z := mask32 (x + y).
Definition rotl32 (n : Z) (x : Z) : Z :=
  mask32 (Z.lor (Z.shiftl x n) (Z.shiftr x (32 - n))).

(** Big-endian bytes of a word, and back. *)
Definition be_bytes (count : nat) (x : Z) : list Z :=
  map (fun i => Z.land (Z.shiftr x (8 * Z.of_nat i)) 255) (rev (seq 0 count)).
Definition be_word (bytes : list Z) : Z :=
  fold_left (fun acc b => Z.lor (Z.shiftl acc 8) b) bytes 0%Z.

(** SHA-1 padding: a one bit, zeros up to 56 modulo 64, the bit length. *)
Definition sha1_pad (msg : list Z) : list Z :=
  let len := length msg in
  let zeros := (64 + 55 - len mod 64) mod 64 in
  msg ++ [128%Z] ++ repeat 0%Z zeros ++ be_bytes 8 (8 * Z.of_nat len).

Fixpoint chunks (fuel size : nat) (l : list Z) : list (list Z) :=
  match fuel with
  | O => []
  | S fuel' =>
      match l with
      | [] => []
      | _ => firstn size l :: chunks fuel' size (skipn size l)
      end
  end.

(** The eighty words of the message schedule of one block. *)
Fixpoint schedule (more : nat) (w : list Z) : list Z :=
  match more with
  | O => w
  | S more' =>
      let i := length w in
      let at_ k := nth (i - k) w 0%Z in
      let x := rotl32 1 (Z.lxor (Z.lxor (at_ 3) (at_ 8)) (Z.lxor (at_ 14) (at_ 16))) in
      schedule more' (w ++ [x])
  end.

Definition sha1_state : Type := Z * Z * Z * Z * Z.

Definition sha1_round (i : nat) (st : sha1_state) (wi : Z) : sha1_state :=
  let '(a, b, c, d, e) := st in
  let not_b := Z.lxor b 4294967295 in
  let '(f, k) :=
    if (i <? 20)%nat then (Z.lor (Z.land b c) (Z.land not_b d), 1518500249%Z)
    else if (i <? 40)%nat then (Z.lxor (Z.lxor b c) d, 1859775393%Z)
    else if (i <? 60)%nat
         then (Z.lor (Z.lor (Z.land b c) (Z.land b d)) (Z.land c d), 2400959708%Z)
         else (Z.lxor (Z.lxor b c) d, 3395469782%Z) in
  let temp := add32 (add32 (add32 (add32 (rotl32 5 a) f) e) k) wi in
  (temp, a, rotl32 30 b, c, d).

Fixpoint sha1_rounds (i : nat) (ws : list Z) (st : sha1_state) : sha1_state :=
  match ws with
  | [] => st
  | wi :: rest => sha1_rounds (S i) rest (sha1_round i st wi)
  end.

Definition sha1_block (h : sha1_state) (block : list Z) : sha1_state :=
  let w := schedule 64 (map be_word (chunks 16 4 block)) in
  let '(h0, h1, h2, h3, h4) := h in
  let '(a, b, c, d, e) := sha1_rounds 0 w h in
  (add32 h0 a, add32 h1 b, add32 h2 c, add32 h3 d, add32 h4 e).

Definition sha1 (msg : list Z) : list Z :=
  let padded := sha1_pad msg in
  let '(h0, h1, h2, h3, h4) :=
    fold_left sha1_block (chunks (length padded) 64 padded)
      (1732584193, 4023233417, 2562383102, 271733878, 3285377520)%Z in
  be_bytes 4 h0 ++ be_bytes 4 h1 ++ be_bytes 4 h2 ++ be_bytes 4 h3 ++ be_bytes 4 h4.

(** [crypto.subtle.sign("HMAC", key, data)] for a key imported with hash
    SHA-1. *)
Definition hmac_sha1 (key data : list Z) : list Z :=
  let key0 := if (64 <? length key)%nat then sha1 key else key in
  let block := key0 ++ repeat 0%Z (64 - length key0) in
  let ipad := map (Z.lxor 54) block in
  let opad := map (Z.lxor 92) block in
  sha1 (opad ++ sha1 (ipad ++ data)).

(** [raw += String.fromCharCode(b)] over the bytes. *)
Definition fromCharCodes (bytes : list Z) : string :=
  fold_right (fun b acc => String (ascii_of_nat (Z.to_nat b)) acc) EmptyString bytes.

Definition base64_digit (n : Z) : ascii :=
  ascii_of_nat (Z.to_nat
    (if (n <? 26)%Z then 65 + n
     else if (n <? 52)%Z then 97 + (n - 26)
     else if (n <? 62)%Z then 48 + (n - 52)
     else if (n =? 62)%Z then 43 else 47)).

(** [btoa(raw)] on a string of code units below 256. *)
Fixpoint btoa (raw : string) : string :=
  let b x := Z.of_nat (code x) in
  let d n := base64_digit (Z.land n 63) in
  match raw with
  | EmptyString => EmptyString
  | String x EmptyString =>
      let n := Z.shiftl (b x) 16 in
      String (d (Z.shiftr n 18)) (String (d (Z.shiftr n 12)) "==")
  | String x (String y EmptyString) =>
      let n := Z.lor (Z.shiftl (b x) 16) (Z.shiftl (b y) 8) in
      String (d (Z.shiftr n 18)) (String (d (Z.shiftr n 12))
        (String (d (Z.shiftr n 6)) "="))
  | String x (String y (String z rest)) =>
      let n := Z.lor (Z.lor (Z.shiftl (b x) 16) (Z.shiftl (b y) 8)) (b z) in
      String (d (Z.shiftr n 18)) (String (d (Z.shiftr n 12))
        (String (d (Z.shiftr n 6)) (String (d n) (btoa rest))))
  end.

(** Lower-case hexadecimal, to read digests against published vectors. *)
Definition hex (bytes : list Z) : string :=
  fold_right (fun b acc =>
      String (hex_digit (Z.to_nat (b / 16))) (String (hex_digit (Z.to_nat (b mod 16))) acc))
    EmptyString bytes.

(** *** Numbers

    The numbers of the worker are integers: a count of milliseconds, a
    parsed decimal literal, their sum.  They are modelled in [Z], which is
    what the IEEE doubles of the source compute as long as every value
    stays a safe integer. *)

Definition safe_integer (z : Z) : Prop := (- 2 ^ 53 < z < 2 ^ 53)%Z.

Fixpoint digits_value (acc : Z) (s : string) : Z :=
  match s with
  | String c r =>
      if is_digit c then digits_value (10 * acc + (Z.of_nat (code c) - 48)) r else acc
  | EmptyString => acc
  end.

(** [Number.parseInt(s, 10)]; [None] stands for [NaN]. *)
Definition parseInt (s : string) : option Z :=
  let s := trimStart s in
  let '(sign, s) := match s with
                    | String c r =>
                        if Ascii.eqb c "-" then ((-1)%Z, r)
                        else if Ascii.eqb c "+" then (1%Z, r)
                        else (1%Z, s)
                    | EmptyString => (1%Z, s)
                    end in
  match s with
  | String c _ => if is_digit c then Some (sign * digits_value 0 s)%Z else None
  | EmptyString => None
  end.

(** The text of an integer in a template literal. *)
Definition Number_toString (z : Z) : string :=
  DecimalString.NilZero.string_of_int (Z.to_int z).

(** *** The worker *)

Record Env : Type := mkEnv {
  ALLOWED_ORIGIN : option string;
  TURN_URLS : option string;
  STUN_URLS : option string;
  TOKEN_TTL_SECONDS : option string;
  TURN_USERNAME : option string;
  TURN_CREDENTIAL : option string;
  TURN_SHARED_SECRET : option string;
  TURN_USERNAME_PREFIX : option string;
}.

Record Request : Type := mkRequest {
  method : string;
  pathname : string;          (* new URL(request.url).pathname *)
  origin : option string;     (* request.headers.get("Origin") *)
}.

Record Response : Type := mkResponse {
  status : nat;
  headers : list (string * string);
  body : option string;
}.

Definition corsHeaders (origin : string) : list (string * string) :=
  [("Access-Control-Allow-Origin", origin);
   ("Access-Control-Allow-Methods", "GET, OPTIONS");
   ("Access-Control-Allow-Headers", "Content-Type");
   ("Access-Control-Max-Age", "86400");
   ("Vary", "Origin")].

Definition nonempty (s : string) : bool :=
  match s with EmptyString => false | String _ _ => true end.

(** [splitCsv]. *)
Definition splitCsv (value : option string) : list string :=
  filter (fun v => nonempty v = true)
    (map trim (split ","%char (or_default value EmptyString))).

(** [hmacSha1Base64]; [None] stands for the rejection of the promise:
    [crypto.subtle.importKey] raises a [DataError] on an HMAC key of
    length zero. *)
Definition hmacSha1Base64 (secret message : string) : option string :=
  match encode secret with
  | [] => None
  | key =>
      let sig := hmac_sha1 key (encode message) in
      let raw := fromCharCodes sig in
      Some (btoa raw)
  end.

(** [headers.has(name)]: header names compare without regard to case. *)
Definition has_header (name : string) (hs : list (string * string)) : bool :=
  existsb (fun h => String.eqb (toLowerCase (fst h)) (toLowerCase name)) hs.

(** [new Response(body, { status, headers })].  A text body whose headers
    name no content type is given [text/plain;charset=UTF-8]; a [null]
    body gets none. *)
Definition new_Response (body : option string) (st : nat)
    (hs : list (string * string)) : Response :=
  {| status := st;
     headers := match body with
                | Some _ =>
                    if has_header "Content-Type" hs then hs
                    else hs ++ [("Content-Type", "text/plain;charset=UTF-8")]
                | None => hs
                end;
     body := body |}.

(** The value kept for a rejected promise of [fetch], the bare 500 of the
    runtime.  No input reaches it: the worker only signs with a secret
    that is non-empty. *)
Definition uncaught : Response :=
  {| status := 500; headers := []; body := None |}.

Definition json_headers (cors : list (string * string)) : list (string * string) :=
  ("Content-Type", "application/json") :: cors.

Definition error_body (msg : string) : option string :=
  Some (stringify (JObj [("error", JStr msg)])).

(** [{ urls: turnUrls, username, credential }]. *)
Definition turn_entry (urls : list string) (username credential : string) : json :=
  JObj [("urls", JArr (map JStr urls)); ("username", JStr username);
        ("credential", JStr credential)].

(** [if (stunUrls.length) iceServers.push({ urls: stunUrls })]. *)
Definition stun_entries (urls : list string) : list json :=
  match urls with
  | [] => []
  | _ :: _ => [JObj [("urls", JArr (map JStr urls))]]
  end.

(** [default.fetch]; [now] is the value of [Date.now()]. *)
Definition fetch (now : Z) (request : Request) (env : Env) : Response :=
  let reqOrigin := or_default (origin request) EmptyString in
  let allowedOrigin := or_default (ALLOWED_ORIGIN env) "*" in
  let allowAll := String.eqb allowedOrigin "*" in
  let cors := corsHeaders (if allowAll then "*" else allowedOrigin) in
  if String.eqb (method request) "OPTIONS"
  then new_Response None 200 cors
  else if negb (String.eqb (method request) "GET")
  then new_Response (Some "Method not allowed") 405 []
  else if negb (String.eqb (pathname request) "/turn")
  then new_Response (Some "Not found") 404 []
  else if negb allowAll && negb (String.eqb reqOrigin allowedOrigin)
  then new_Response (Some "Forbidden") 403 []
  else
    let turnUrls := splitCsv (TURN_URLS env) in
    let stunUrls := splitCsv (STUN_URLS env) in
    match turnUrls with
    | [] => new_Response (error_body "TURN_URLS is empty") 500 (json_headers cors)
    | _ :: _ =>
        let username := trim (or_default (TURN_USERNAME env) EmptyString) in
        let credential := trim (or_default (TURN_CREDENTIAL env) EmptyString) in
        let derived :=
          if negb (nonempty username) || negb (nonempty credential) then
            let sharedSecret := trim (or_default (TURN_SHARED_SECRET env) EmptyString) in
            if nonempty sharedSecret then
              let ttl := parseInt (or_default (TOKEN_TTL_SECONDS env) "3600") in
              let expires := (now / 1000 + match ttl with Some t => t | None => 3600 end)%Z in
              let prefix := trim (or_default (TURN_USERNAME_PREFIX env) "ink-soccer") in
              let username := (Number_toString expires ++ ":" ++ prefix)%string in
              match hmacSha1Base64 sharedSecret username with
              | Some credential => Some (username, credential)
              | None => None
              end
            else Some (username, credential)
          else Some (username, credential) in
        match derived with
        | None => uncaught
        | Some (username, credential) =>
            if negb (nonempty username) || negb (nonempty credential)
            then new_Response
                   (error_body "Set TURN_USERNAME + TURN_CREDENTIAL or TURN_SHARED_SECRET")
                   500 (json_headers cors)
            else
              let iceServers :=
                stun_entries stunUrls ++ [turn_entry turnUrls username credential] in
              new_Response (Some (stringify (JObj [("iceServers", JArr iceServers)])))
                200 (json_headers cors)
        end
    end.

(** A sample configuration in shared-secret mode. *)
Definition sample_env : Env :=
  {| ALLOWED_ORIGIN := None;
     TURN_URLS := Some "turn:a.example:3478, turns:b.example:5349";
     STUN_URLS := Some "stun:s.example";
     TOKEN_TTL_SECONDS := Some "600";
     TURN_USERNAME := None;
     TURN_CREDENTIAL := None;
     TURN_SHARED_SECRET := Some "s3cret";
     TURN_USERNAME_PREFIX := None |}.


(** *** Sample inputs, continued *)

(** A configuration in static-credentials mode, restricted to one origin. *)
Definition static_env : Env :=
  {| ALLOWED_ORIGIN := Some "https://game.example";
     TURN_URLS := Some "turn:a.example:3478";
     STUN_URLS := None;
     TOKEN_TTL_SECONDS := None;
     TURN_USERNAME := Some " alice ";
     TURN_CREDENTIAL := Some "pa55";
     TURN_SHARED_SECRET := Some "s3cret";
     TURN_USERNAME_PREFIX := None |}.

(** The origin the worker names in its CORS headers. *)
Definition cors_origin (env : Env) : string := or_default (ALLOWED_ORIGIN env) "*".

(** The request passes the method, path and origin checks of [fetch]. *)
Definition let_through (req : Request) (env : Env) : Prop :=
  method req = "GET" ∧ pathname req = "/turn"
  ∧ (cors_origin env = "*" ∨ or_default (origin req) EmptyString = cors_origin env).

(** The body of a successful answer. *)
Definition ice_body (env : Env) (username credential : string) : option string :=
  Some (stringify (JObj [("iceServers",
    JArr (stun_entries (splitCsv (STUN_URLS env))
          ++ [turn_entry (splitCsv (TURN_URLS env)) username credential]))])).

(** A character of the base64 alphabet or the padding sign. *)
Definition base64_char (c : ascii) : Prop :=
  let n := code c in
  (65 <= n <= 90 ∨ 97 <= n <= 122 ∨ 48 <= n <= 57 ∨ n = 43 ∨ n = 47 ∨ n = 61)%nat.

(** A string without white space at either end. *)
Definition starts_clean (s : string) : Prop :=
  match s with String c _ => is_space c = false | EmptyString => True end.

(** The same test as a boolean, to run it over the sixty-four digits. *)
Definition base64_charb (c : ascii) : bool :=
  let n := code c in
  ((65 <=? n) && (n <=? 90) || (97 <=? n) && (n <=? 122) || (48 <=? n) && (n <=? 57)
   || (n =? 43) || (n =? 47) || (n =? 61))%nat.

End Turn.

(** ** Properties of the relay worker *)

Module RelayFacts.
Import Js Relay.
Local Open Scope list_scope.

(** The scenario of the room TEST1: A and B connect, A says hello, B
    leaves, C connects and is made join while A stays host. *)
Example scenario_TEST1 :
  let rq := upgrade_to "/room/TEST1" in
  let evs := [Connect rq false; Connect rq false; Message 0 (TextData "hello");
              Close 1; Connect rq false] in
  transcript evs fresh
  = [Delivered 0 (ready Host "TEST1");
     Delivered 1 (ready Join "TEST1");
     Delivered 0 peer_joined; Delivered 1 peer_joined;
     Delivered 1 (TextData "hello");
     Delivered 0 peer_left;
     Delivered 2 (ready Join "TEST1");
     Delivered 0 peer_joined; Delivered 2 peer_joined]
  ∧ host (run evs fresh) = Some 0 ∧ join (run evs fresh) = Some 2.
Proof. vm_compute. repeat split. Qed.

Lemma attempt_send t d st : attempt (send t d) st = (Ok tt, st, [sent st t d]).
Proof. unfold attempt, try_catch, send, sent, ret. by case_decide. Qed.

Lemma cleanup_eq role server st :
  cleanup role server st = (Ok tt, vacate role server st, farewell role (vacate role server st)).
Proof.
  unfold cleanup, farewell, bind, get, modify, ret.
  destruct role; simpl; repeat case_bool_decide; simpl.
  all: try (destruct (join _) eqn:E; simpl; rewrite ?attempt_send; reflexivity).
  all: try (destruct (host _) eqn:E; simpl; rewrite ?attempt_send; reflexivity).
Qed.

Lemma on_message_eq role d st :
  on_message role d st =
  (Ok tt, st,
   match (if decide (role = Host) then join st else host st) with
   | Some t => [sent st t (TextData (payload_of d))]
   | None => []
   end).
Proof.
  unfold on_message, bind, get. simpl.
  destruct (if decide (role = Host) then join st else host st); simpl.
  - rewrite attempt_send. reflexivity.
  - reflexivity.
Qed.

Lemma send_raises t d st : t ∈ closed st → send t d st = (Throw, st, [Raised t d]).
Proof. intros H. unfold send. by destruct (decide _). Qed.

Lemma send_delivers t d st : t ∉ closed st → send t d st = (Ok tt, st, [Delivered t d]).
Proof. intros H. unfold send. by destruct (decide _). Qed.

#[local] Arguments send : simpl never.

#[local] Arguments attempt : simpl never.

#[local] Arguments cleanup : simpl never.

Lemma RoomDO_fetch_eq req gone st :
  RoomDO_fetch req gone st =
  if not_websocket req then (Ok (bad "Expected websocket" 426), st, [])
  else if decide (role_for st = Spectator) then (Ok (bad "Room is full" 409), st, [])
  else
    let role := role_for st in
    let server := created st in
    let st1 := seat role gone st in
    if decide (server ∈ closed st1)
    then (Ok (switching server), vacate role server st1,
          Raised server (ready role (room_of req)) :: farewell role (vacate role server st1))
    else (Ok (switching server), st1,
          Delivered server (ready role (room_of req)) :: greet st1).
Proof.
  unfold RoomDO_fetch. destruct (not_websocket req); [reflexivity|].
  unfold bind at 1. unfold get at 1. cbn zeta.
  case_decide as Hr; [reflexivity|].
  destruct (role_for st) eqn:Er; [| |done].
  all: unfold bind, accept_pair, addEventListeners, modify, try_catch, get, ret,
         seat, greet; simpl.
  all: destruct (decide (created st ∈ _)) as [Hc|Hc].
  all: try (rewrite send_raises by exact Hc; rewrite cleanup_eq; simpl;
            by rewrite ?app_nil_r).
  all: rewrite send_delivers by exact Hc; simpl.
  - destruct (join st); simpl; [|done].
    rewrite !attempt_send; simpl; by rewrite ?app_nil_r.
  - destruct (host st); simpl; [|done].
    rewrite !attempt_send; simpl; by rewrite ?app_nil_r.
Qed.

Lemma step_message from d st : step st (Message from d) = st.
Proof.
  unfold step, handle, bind, get, ret. simpl.
  destruct (listeners st !! from); simpl; [|done].
  by rewrite on_message_eq.
Qed.

Lemma step_depart from st :
  step st (Close from) = depart from st ∧ step st (Error from) = depart from st.
Proof.
  unfold step, handle, depart, bind, get, ret, shut, modify. simpl.
  destruct (listeners st !! from); simpl; [|done].
  by rewrite cleanup_eq.
Qed.

Lemma step_hangup s st :
  step st (Hangup s) = if listeners st !! s is Some _ then shut_state s st else st.
Proof.
  unfold step, handle, bind, get, ret. simpl.
  by destruct (listeners st !! s).
Qed.

Lemma step_connect req gone st :
  step st (Connect req gone) =
  if not_websocket req then st
  else if decide (role_for st = Spectator) then st
  else if gone then vacate (role_for st) (created st) (seat (role_for st) true st)
  else if decide (created st ∈ closed st)
       then vacate (role_for st) (created st) (seat (role_for st) false st)
       else seat (role_for st) false st.
Proof.
  unfold step, handle, bind, ret. rewrite RoomDO_fetch_eq.
  destruct (not_websocket req); [done|].
  destruct (decide (role_for st = Spectator)); [done|].
  cbn zeta. destruct gone; simpl.
  - destruct (decide _) as [?|Hn]; [done|]. exfalso. apply Hn. set_solver.
  - by destruct (decide _).
Qed.

Lemma wf_fresh : wf fresh.
Proof. split; simpl; try done. intros s [r Hr]. by rewrite lookup_empty in Hr. Qed.

Lemma wf_shut s st : wf st → is_Some (listeners st !! s) → wf (shut_state s st).
Proof.
  intros [Hh Hj Hl Hc Hd] Hs. split; simpl; auto.
  - intros s' r Hs' Hn. destruct r; simpl; apply (Hl s' _ Hs'); set_solver.
  - intros s' [->%elem_of_singleton|H]%elem_of_union; auto.
Qed.

Lemma wf_vacate_closed r s st :
  wf st → s ∈ closed st → wf (vacate r s st).
Proof.
  intros [Hh Hj Hl Hc Hd] Hs.
  destruct r; simpl; [| |by split]; case_bool_decide as E; try by split.
  - split; simpl; auto; [done|].
    intros s' r Hs' Hn. specialize (Hl s' r Hs' Hn).
    destruct r; simpl in *; try done. congruence.
  - split; simpl; auto; [done|].
    intros s' r Hs' Hn. specialize (Hl s' r Hs' Hn).
    destruct r; simpl in *; try done. congruence.
Qed.

Lemma wf_depart s st : wf st → wf (depart s st).
Proof.
  intros H. unfold depart.
  destruct (listeners st !! s) eqn:E; [|done].
  apply wf_vacate_closed; [by apply wf_shut|]. simpl. set_solver.
Qed.

Lemma role_for_host st : role_for st = Host → host st = None.
Proof. unfold role_for. by repeat case_match. Qed.

Lemma role_for_join st : role_for st = Join → is_Some (host st) ∧ join st = None.
Proof. unfold role_for. by destruct (host st), (join st). Qed.

Lemma role_for_spectator st :
  role_for st = Spectator ↔ is_Some (host st) ∧ is_Some (join st).
Proof.
  unfold role_for. destruct (host st), (join st); split; try done; eauto.
  all: intros [[? ?] [? ?]]; done.
Qed.

Lemma wf_seat gone st :
  wf st → role_for st ≠ Spectator → wf (seat (role_for st) gone st).
Proof.
  intros [Hh Hj Hl Hc Hd] Hr.
  assert (Hfresh : listeners st !! created st = None).
  { destruct (listeners st !! created st) eqn:E; [|done].
    assert (created st < created st) by eauto. lia. }
  assert (Hne : ∀ s r, listeners st !! s = Some r → created st ≠ s).
  { intros s r Hs <-. congruence. }
  assert (Hcl : ∀ s, s ∈ (if gone then {[created st]} ∪ closed st else closed st)
                     → s < S (created st)).
  { intros s. destruct gone.
    - intros [->%elem_of_singleton|H]%elem_of_union; [lia|]. apply Hd in H. lia.
    - intros H. apply Hd in H. lia. }
  destruct (role_for st) eqn:Er; [| |done].
  - apply role_for_host in Er.
    split; unfold seat; simpl; [| | | |done].
    + intros s [= <-]. by rewrite lookup_insert_eq.
    + intros s Hs. rewrite lookup_insert_ne; eauto.
    + intros s r. destruct (decide (created st = s)) as [<-|Hn].
      * rewrite lookup_insert_eq. by intros [= <-] _.
      * rewrite lookup_insert_ne by done. intros Hs Hcl'.
        assert (slot r st = Some s) as Hslot.
        { apply Hl; [done|]. destruct gone; set_solver. }
        destruct r; simpl in *; congruence.
    + intros s. destruct (decide (created st = s)) as [<-|Hn]; [lia|].
      rewrite lookup_insert_ne by done. intros H. apply Hc in H. lia.
  - apply role_for_join in Er as [[h Hhost] Hjoin].
    split; unfold seat; simpl; [| | | |done].
    + intros s Hs. rewrite lookup_insert_ne; eauto.
    + intros s [= <-]. by rewrite lookup_insert_eq.
    + intros s r. destruct (decide (created st = s)) as [<-|Hn].
      * rewrite lookup_insert_eq. by intros [= <-] _.
      * rewrite lookup_insert_ne by done. intros Hs Hcl'.
        assert (slot r st = Some s) as Hslot.
        { apply Hl; [done|]. destruct gone; set_solver. }
        destruct r; simpl in *; congruence.
    + intros s. destruct (decide (created st = s)) as [<-|Hn]; [lia|].
      rewrite lookup_insert_ne by done. intros H. apply Hc in H. lia.
Qed.

Lemma wf_step st ev : wf st → wf (step st ev).
Proof.
  intros H. destruct ev as [req gone|from d|from|from|s].
  - rewrite step_connect.
    destruct (not_websocket req); [done|].
    destruct (decide _) as [|Hr]; [done|].
    destruct gone.
    + apply wf_vacate_closed; [by apply wf_seat|]. simpl. set_solver.
    + destruct (decide _) as [Hc|Hc]; [|by apply wf_seat].
      apply wf_vacate_closed; [by apply wf_seat|]. done.
  - by rewrite step_message.
  - rewrite (proj1 (step_depart from st)). by apply wf_depart.
  - rewrite (proj2 (step_depart from st)). by apply wf_depart.
  - rewrite step_hangup. destruct (listeners st !! s) eqn:E; [|done].
    apply wf_shut; [done|]. by rewrite E.
Qed.

Lemma wf_run evs st : wf st → wf (run evs st).
Proof.
  revert st. induction evs as [|ev evs IH]; intros st H; [done|].
  simpl. apply IH. by apply wf_step.
Qed.

Lemma wf_reachable st : reachable st → wf st.
Proof. intros [evs ->]. apply wf_run, wf_fresh. Qed.

Lemma live_occupants st : wf st → live st ⊆ occupants st.
Proof.
  intros [Hh Hj Hl Hc] s. unfold live, occupants.
  rewrite elem_of_difference, elem_of_dom. intros [[r Hr] Hn].
  specialize (Hl s r Hr Hn).
  destruct r; simpl in Hl; [rewrite Hl|rewrite Hl|done]; set_solver.
Qed.

Lemma occupants_size st : (size (occupants st) ≤ 2)%nat.
Proof.
  unfold occupants. rewrite size_union_alt.
  assert (size (from_option singleton (∅ : gset sock) (join st)
                ∖ from_option singleton ∅ (host st))
          ≤ size (from_option singleton (∅ : gset sock) (join st)))%nat as Hle.
  { apply subseteq_size, subseteq_difference_l. done. }
  revert Hle. destruct (host st), (join st); unfold from_option;
    rewrite ?size_singleton, ?size_empty; lia.
Qed.


Lemma handle_message from role d st :
  listeners st !! from = Some role →
  handle (Message from d) st =
  (Ok None, st,
   match target_of role st with
   | Some t => [sent st t (TextData (payload_of d))]
   | None => []
   end).
Proof.
  intros Hl. unfold handle, bind, get, ret. simpl. rewrite Hl. simpl.
  rewrite on_message_eq. unfold target_of.
  by destruct (if decide (role = Host) then join st else host st).
Qed.

(** No event puts a connection in a slot that is held: after the event the
    slot has the same occupant or none. *)
Lemma slot_never_overwritten st ev r s :
  slot r st = Some s →
  slot r (step st ev) = Some s ∨ slot r (step st ev) = None.
Proof.
  intros Hs.
  assert (∀ r' x st0, slot r st0 = Some s →
            slot r (vacate r' x st0) = Some s ∨ slot r (vacate r' x st0) = None) as Hv.
  { intros r' x st0 H0. destruct r, r'; simpl in *; try done;
      try case_bool_decide; simpl; auto. }
  destruct ev as [req gone|from d|from|from|x].
  - rewrite step_connect.
    destruct (not_websocket req); [auto|].
    destruct (decide _) as [|Hr]; [auto|].
    assert (∀ g, slot r (seat (role_for st) g st) = Some s) as Hseat.
    { intros g. destruct (role_for st) eqn:Er; [| |done].
      - apply role_for_host in Er. destruct r; simpl in *; congruence.
      - apply role_for_join in Er as [_ Er]. destruct r; simpl in *; congruence. }
    destruct gone; [by apply Hv|].
    destruct (decide _); [by apply Hv|auto].
  - rewrite step_message. auto.
  - rewrite (proj1 (step_depart from st)). unfold depart.
    destruct (listeners st !! from); [|auto]. apply Hv. by destruct r.
  - rewrite (proj2 (step_depart from st)). unfold depart.
    destruct (listeners st !! from); [|auto]. apply Hv. by destruct r.
  - rewrite step_hangup. destruct (listeners st !! x); [|auto]. left. by destruct r.
Qed.

(** C2: along every sequence of events handled from the fresh state, two
    open accepted connections never share a role and no event replaces
    the occupant of a slot by another connection (each slot has at most
    one occupant); every open accepted connection sits in a slot, and so
    the actor holds at most two live connections. *)
Theorem capacity_invariant (evs : list Event) :
  let st := run evs fresh in
  (∀ r s1 s2, s1 ∈ live st → s2 ∈ live st →
     listeners st !! s1 = Some r → listeners st !! s2 = Some r → s1 = s2)
  ∧ (∀ ev r s, slot r st = Some s →
       slot r (step st ev) = Some s ∨ slot r (step st ev) = None)
  ∧ live st ⊆ occupants st
  ∧ (size (occupants st) ≤ 2)%nat
  ∧ (size (live st) ≤ 2)%nat.
Proof.
  intros st. assert (Hwf : wf st) by apply wf_run, wf_fresh.
  split; [|split; [|split; [|split]]].
  2: { intros ev r s. apply slot_never_overwritten. }
  - intros r s1 s2 H1 H2 L1 L2.
    apply elem_of_difference in H1 as [_ N1].
    apply elem_of_difference in H2 as [_ N2].
    pose proof (wf_live st Hwf s1 r L1 N1) as E1.
    pose proof (wf_live st Hwf s2 r L2 N2) as E2.
    congruence.
  - by apply live_occupants.
  - apply occupants_size.
  - etrans; [apply subseteq_size, live_occupants, Hwf|apply occupants_size].
Qed.

(** C8: forwarding is best effort.  A message whose target slot is empty
    is dropped: nothing is sent, to the sender or anyone, and the state is
    as before.  A message whose target raises on [send] costs one failed
    call: the exception is caught, there is no second call, nothing goes
    to the sender, and the state is as before. *)
Theorem forwarding_never_fatal (st : Room) (from : sock) (role : Role) (d : WsData) :
  listeners st !! from = Some role →
  (target_of role st = None →
     handle (Message from d) st = (Ok None, st, []))
  ∧ (∀ t, target_of role st = Some t → t ∈ closed st →
     handle (Message from d) st = (Ok None, st, [Raised t (TextData (payload_of d))])).
Proof.
  intros Hl. rewrite (handle_message _ _ _ _ Hl). split.
  - by intros ->.
  - intros t -> Ht. unfold sent. by destruct (decide _).
Qed.

Lemma forwarding_never_fatal_witness :
  handle (Message 0 (TextData "hello")) (run [Close 1] paired)
  = (Ok None, run [Close 1] paired, [])
  ∧ handle (Message 0 (TextData "hello")) (run [Hangup 1] paired)
    = (Ok None, run [Hangup 1] paired, [Raised 1 (TextData "hello")]).
Proof.
  split.
  - apply (forwarding_never_fatal (run [Close 1] paired) 0 Host (TextData "hello"));
      vm_compute; reflexivity.
  - apply (proj2 (forwarding_never_fatal (run [Hangup 1] paired) 0 Host
                    (TextData "hello") ltac:(vm_compute; reflexivity)) 1);
      vm_compute; reflexivity.
Defined.

(** C4: a connect that finds both slots occupied is answered 409 with no
    WebSocket in the response; no pair is created, no listener is
    registered, no frame is sent, and every field of the actor, the two
    slots included, is as before. *)
Theorem full_room_refuses (st : Room) (req : Request) (gone : bool) (h j : sock) :
  host st = Some h → join st = Some j → not_websocket req = false →
  handle (Connect req gone) st = (Ok (Some (bad "Room is full" 409)), st, [])
  ∧ webSocket (bad "Room is full" 409) = None
  ∧ step st (Connect req gone) = st.
Proof.
  intros Hh Hj Hu.
  assert (Hr : role_for st = Spectator) by (unfold role_for; by rewrite Hh, Hj).
  split; [|split; [done|]].
  - unfold handle, bind, ret. rewrite RoomDO_fetch_eq, Hu.
    by destruct (decide _).
  - rewrite step_connect, Hu. by destruct (decide _).
Qed.

Lemma full_room_refuses_witness :
  handle (Connect (upgrade_to "/room/TEST1") false) paired
  = (Ok (Some (bad "Room is full" 409)), paired, []).
Proof.
  apply (full_room_refuses paired (upgrade_to "/room/TEST1") false 0 1);
    vm_compute; reflexivity.
Defined.

(** C10: a close or error event of a connection leaves alone every slot
    that holds another connection; a late close of a replaced connection
    does not evict its replacement. *)
Theorem stale_close_keeps_occupant (st : Room) (from : sock) (r : Role) (s : sock) :
  slot r st = Some s → s ≠ from →
  slot r (step st (Close from)) = Some s ∧ slot r (step st (Error from)) = Some s.
Proof.
  intros Hs Hne.
  destruct (step_depart from st) as [-> ->].
  assert (slot r (depart from st) = Some s); [|done].
  unfold depart. destruct (listeners st !! from) as [r'|]; [|by destruct r].
  destruct r, r'; simpl in *; try done; case_bool_decide; simpl; congruence.
Qed.

Lemma stale_close_keeps_occupant_witness :
  host replaced = Some 1
  ∧ slot Host (step replaced (Close 0)) = Some 1
  ∧ slot Host (step replaced (Error 0)) = Some 1.
Proof.
  split; [reflexivity|].
  apply (stale_close_keeps_occupant replaced 0 Host 1); [reflexivity|lia].
Defined.

(** C1, as stated, fails on a binary frame: with both slots occupied and
    the target open, the host's binary frame reaches the joiner as the
    text frame [[object ArrayBuffer]], not as the frame received. *)
Lemma binary_frame_is_coerced :
  let frame := BinaryData ["001"; "002"; "003"]%char in
  listeners paired !! 0 = Some Host
  ∧ target_of Host paired = Some 1
  ∧ (1 ∉ closed paired)
  ∧ emitted paired (Message 0 frame) = [Delivered 1 (TextData "[object ArrayBuffer]")]
  ∧ emitted paired (Message 0 frame) ≠ [Delivered 1 frame].
Proof.
  cbv zeta. split; [reflexivity|]. split; [reflexivity|].
  split; [vm_compute; discriminate|]. split; [reflexivity|].
  vm_compute. discriminate.
Qed.

(** C1, amended: when the slot opposite to the sender's role is occupied
    and its socket takes frames, a text frame is forwarded to it as the
    same text in a text frame, and nothing else is sent; a binary frame is
    forwarded as the text frame holding [String(evt.data)].  The state is
    unchanged. *)
Theorem text_forwarded_verbatim (st : Room) (from : sock) (role : Role) (t : sock) :
  listeners st !! from = Some role →
  target_of role st = Some t →
  t ∉ closed st →
  (∀ s, handle (Message from (TextData s)) st
        = (Ok None, st, [Delivered t (TextData s)]))
  ∧ (∀ b : list ascii, handle (Message from (BinaryData b)) st
          = (Ok None, st, [Delivered t (TextData (String_of_buffer b))])).
Proof.
  intros Hl Ht Hc.
  assert (∀ d, handle (Message from d) st
               = (Ok None, st, [Delivered t (TextData (payload_of d))])) as H.
  { intros d. rewrite (handle_message _ _ _ _ Hl), Ht.
    unfold sent. by destruct (decide _). }
  split; intros x; apply H.
Qed.

Lemma text_forwarded_verbatim_witness :
  handle (Message 0 (TextData "hello")) paired
  = (Ok None, paired, [Delivered 1 (TextData "hello")]).
Proof.
  apply (proj1 (text_forwarded_verbatim paired 0 Host 1
                  ltac:(reflexivity) ltac:(reflexivity)
                  ltac:(vm_compute; discriminate))).
Defined.


Lemma slot_listener st r s : wf st → slot r st = Some s → listeners st !! s = Some r.
Proof.
  intros Hwf Hs. destruct r; simpl in Hs; [| |done].
  - by apply wf_host.
  - by apply wf_join.
Qed.

Lemma target_of_slot r st :
  r ≠ Spectator → target_of r st = slot (if decide (r = Host) then Join else Host) st.
Proof. by destruct r. Qed.

Lemma handle_depart from role st :
  listeners st !! from = Some role →
  handle (Close from) st
  = (Ok None, depart from st, farewell role (depart from st))
  ∧ handle (Error from) st
    = (Ok None, depart from st, farewell role (depart from st)).
Proof.
  intros Hl. unfold handle, depart, bind, get, ret, shut, modify. simpl.
  rewrite Hl. simpl. rewrite cleanup_eq. simpl. by rewrite app_nil_r.
Qed.

(** C5, as stated, fails when the joiner leaves a room whose host slot is
    empty: the slot vacated is the join slot, and the next connection is
    made host. *)
Lemma vacated_join_role_not_reused :
  let st' := step joiner_alone (Close 1) in
  let rq := upgrade_to "/room/TEST1" in
  slot Join joiner_alone = Some 1
  ∧ slot Join st' = None
  ∧ emitted st' (Connect rq false) = [Delivered 2 (ready Host "TEST1")]
  ∧ slot Join (step st' (Connect rq false)) = None
  ∧ slot Host (step st' (Connect rq false)) = Some 2
  ∧ emitted st' (Connect rq false) ≠ [Delivered 2 (ready Join "TEST1")].
Proof. cbv zeta. repeat split; try reflexivity. vm_compute. discriminate. Qed.

Lemma created_open st : wf st → created st ∉ closed st.
Proof. intros Hwf Hc. apply (wf_closed st Hwf) in Hc. lia. Qed.

Lemma handle_connect_open req st :
  wf st → not_websocket req = false → role_for st ≠ Spectator →
  handle (Connect req false) st
  = (Ok (Some (switching (created st))), seat (role_for st) false st,
     Delivered (created st) (ready (role_for st) (room_of req))
       :: greet (seat (role_for st) false st)).
Proof.
  intros Hwf Hu Hr. unfold handle, bind, ret. rewrite RoomDO_fetch_eq, Hu.
  destruct (decide _) as [|_]; [done|]. cbn zeta.
  destruct (decide _) as [Hc|_]; [by apply (created_open st) in Hc|].
  simpl. by rewrite app_nil_r.
Qed.

Lemma connect_assigned req st :
  wf st → not_websocket req = false → role_for st ≠ Spectator →
  assigned st req (role_for st).
Proof.
  intros Hwf Hu Hr. unfold assigned, answer, emitted, step.
  rewrite (handle_connect_open _ _ Hwf Hu Hr). simpl.
  split; [done|]. split; [done|].
  by destruct (role_for st).
Qed.

(** C5, amended: when an occupant's close or error event is handled, its
    slot is vacated and the other slot is untouched; the other occupant,
    if there is one and its socket takes frames, is sent [peer left] and
    nothing else is sent; the next connection is accepted and is given the
    vacated slot's role, unless the joiner left a room whose host slot is
    empty, in which case it is made host. *)
Theorem disconnect_frees_slot (st : Room) (r : Role) (s : sock) (ev : Event) :
  reachable st → slot r st = Some s → ev = Close s ∨ ev = Error s →
  let st' := step st ev in
  slot r st' = None
  ∧ target_of r st' = target_of r st
  ∧ (target_of r st = None → emitted st ev = [])
  ∧ (∀ p, target_of r st = Some p → p ∉ closed st →
       emitted st ev = [Delivered p peer_left])
  ∧ (∀ req, not_websocket req = false →
       (r = Host ∨ is_Some (host st) → assigned st' req r)
       ∧ (r = Join ∧ host st = None → assigned st' req Host)).
Proof.
  intros Hre Hs Hev st'.
  pose proof (wf_reachable _ Hre) as Hwf.
  pose proof (slot_listener _ _ _ Hwf Hs) as Hl.
  assert (Hst : st' = vacate r s (shut_state s st)).
  { unfold st'. destruct (step_depart s st) as [E1 E2].
    destruct Hev as [-> | ->]; [rewrite E1|rewrite E2]; unfold depart; by rewrite Hl. }
  assert (Hem : emitted st ev = farewell r st').
  { destruct (handle_depart _ _ _ Hl) as [E1 E2]. unfold emitted.
    rewrite Hst. destruct Hev as [-> | ->]; [rewrite E1|rewrite E2];
      simpl; unfold depart; by rewrite Hl. }
  assert (Hwf' : wf st').
  { unfold st'. by apply wf_step. }
  assert (Hr : r = Host ∨ r = Join) by (destruct r; auto; done).
  assert (Hslot : slot r st' = None).
  { rewrite Hst. destruct Hr as [-> | ->]; simpl in *;
      rewrite bool_decide_eq_true_2 by done; done. }
  assert (Htgt : target_of r st' = target_of r st).
  { rewrite Hst. destruct Hr as [-> | ->]; simpl in *;
      rewrite bool_decide_eq_true_2 by done; done. }
  assert (Hcl : closed st' = {[s]} ∪ closed st).
  { rewrite Hst. destruct Hr as [-> | ->]; simpl in *;
      rewrite bool_decide_eq_true_2 by done; done. }
  split; [done|]. split; [done|].
  split; [|split].
  - intros Hn. rewrite Hem. unfold farewell. fold (target_of r st').
    by rewrite Htgt, Hn.
  - intros p Hp Hopen. rewrite Hem. unfold farewell. fold (target_of r st').
    rewrite Htgt, Hp. unfold sent.
    destruct (decide _) as [Hin|]; [|done].
    rewrite Hcl in Hin. apply elem_of_union in Hin as [->%elem_of_singleton|]; [|done].
    exfalso. rewrite target_of_slot in Hp by (destruct Hr; congruence).
    apply (slot_listener _ _ _ Hwf) in Hp.
    destruct Hr as [-> | ->]; simpl in *; congruence.
  - intros req Hu.
    assert (Hhost : host st' = if decide (r = Host) then None else host st).
    { destruct Hr as [-> | ->]; simpl in *; [done|].
      unfold target_of in Htgt. by simpl in Htgt. }
    assert (Hjoin : r = Join → join st' = None) by (by intros ->).
    split.
    + intros Hcase.
      assert (role_for st' = r) as E.
      { unfold role_for. rewrite Hhost. destruct Hr as [-> | ->]; simpl; [done|].
        destruct Hcase as [|[h Hh]]; [done|]. by rewrite Hh, Hjoin. }
      rewrite <- E. apply connect_assigned; try done. rewrite E.
      destruct Hr; congruence.
    + intros [-> Hh].
      assert (role_for st' = Host) as E.
      { unfold role_for. rewrite Hhost. simpl. by rewrite Hh. }
      rewrite <- E. apply connect_assigned; try done. by rewrite E.
Qed.

Lemma disconnect_frees_slot_witness :
  let st' := step paired (Close 1) in
  slot Join st' = None
  ∧ host st' = Some 0
  ∧ emitted paired (Close 1) = [Delivered 0 peer_left]
  ∧ assigned st' (upgrade_to "/room/TEST1") Join.
Proof.
  destruct (disconnect_frees_slot paired Join 1 (Close 1))
    as (H1 & H2 & _ & H4 & H5).
  - exists [Connect (upgrade_to "/room/TEST1") false;
            Connect (upgrade_to "/room/TEST1") false]. reflexivity.
  - reflexivity.
  - left. reflexivity.
  - cbv zeta. split; [exact H1|]. split; [exact H2|]. split.
    + apply (H4 0); [reflexivity|]. vm_compute. discriminate.
    + apply (H5 (upgrade_to "/room/TEST1")); [reflexivity|].
      right. exists 0. reflexivity.
Defined.


(** *** Paths and room codes *)

Lemma code_char_ok c : code_char c = true ↔ code_unit_ok (code c).
Proof.
  unfold code_char, code_unit_ok, is_upper, is_lower, is_digit.
  rewrite !orb_true_iff, !andb_true_iff, !Nat.leb_le.
  assert (∀ k, Ascii.eqb c (ascii_of_nat k) = true ↔ c = ascii_of_nat k) as He
    by (intros; apply Ascii.eqb_eq).
  change "_"%char with (ascii_of_nat 95). change "-"%char with (ascii_of_nat 45).
  rewrite !He. unfold code.
  split.
  - intros [[[[H|H]|H]|H]|H]; try lia; subst c;
      rewrite nat_ascii_embedding by lia; lia.
  - intros [H|[H|[H|[H|H]]]]; try tauto.
    + left; right. rewrite <- H. by rewrite ascii_nat_embedding.
    + right. rewrite <- H. by rewrite ascii_nat_embedding.
Qed.

Lemma all_chars_each s : all_chars code_char s = true ↔ each_char (λ x, code_unit_ok (code x)) s.
Proof.
  induction s as [|c s IH]; simpl; [done|].
  by rewrite andb_true_iff, code_char_ok, IH.
Qed.

Lemma strip_prefix_app p s : strip_prefix p (p ++ s)%string = Some s.
Proof.
  induction p as [|a p IH]; simpl; [by destruct s|].
  by rewrite Ascii.eqb_refl.
Qed.

Lemma strip_prefix_inv p s r : strip_prefix p s = Some r → s = (p ++ r)%string.
Proof.
  revert s. induction p as [|a p IH]; intros s; simpl.
  - destruct s; by intros [= <-].
  - destruct s as [|b s]; [done|].
    destruct (Ascii.eqb a b) eqn:E; [|done].
    apply Ascii.eqb_eq in E as ->. intros H. by rewrite (IH _ H).
Qed.

Lemma match_room_spec path c :
  match_room path = Some c ↔ path = ("/room/" ++ c)%string ∧ RoomCode c.
Proof.
  unfold match_room, RoomCode. split.
  - destruct (strip_prefix "/room/" path) as [rest|] eqn:E; [|done].
    apply strip_prefix_inv in E.
    destruct (_ && _) eqn:B; [|done]. intros [= <-].
    apply andb_true_iff in B as [B1 B3]. apply andb_true_iff in B1 as [B1 B2].
    apply Nat.leb_le in B1, B2. by apply all_chars_each in B3.
  - intros [-> [[H1 H2] H3]]. rewrite strip_prefix_app.
    apply Nat.leb_le in H1, H2. apply all_chars_each in H3.
    by rewrite H1, H2, H3.
Qed.

Lemma split_no_sep sep s :
  each_char (λ x, x ≠ sep) s → split sep s = [s].
Proof.
  induction s as [|c s IH]; simpl; [done|]. intros [Hc Hs].
  destruct (Ascii.eqb c sep) eqn:E; [by apply Ascii.eqb_eq in E|].
  by rewrite IH.
Qed.

Lemma each_char_impl (P Q : ascii → Prop) s :
  (∀ x, P x → Q x) → each_char P s → each_char Q s.
Proof. intros H. induction s; simpl; [done|]. intros [? ?]. split; auto. Qed.

Lemma code_unit_ok_not_slash x : code_unit_ok (code x) → x ≠ "/"%char.
Proof.
  intros H ->. unfold code_unit_ok in H.
  change (code "/"%char) with 47%nat in H. lia.
Qed.

Lemma RoomCode_nonempty c : RoomCode c → c ≠ EmptyString.
Proof. intros [[H _] _] ->. simpl in H. lia. Qed.

Lemma split_sep sep r : split sep (String sep r) = EmptyString :: split sep r.
Proof. simpl. by rewrite Ascii.eqb_refl. Qed.

Lemma split_other sep c r :
  c ≠ sep →
  split sep (String c r)
  = match split sep r with
    | seg :: segs => String c seg :: segs
    | [] => [String c EmptyString]
    end.
Proof.
  intros H. simpl. destruct (Ascii.eqb c sep) eqn:E; [|done].
  by apply Ascii.eqb_eq in E.
Qed.

Lemma split_room_path c :
  each_char (λ x, x ≠ "/"%char) c →
  split "/"%char ("/room/" ++ c)%string = [EmptyString; "room"; c].
Proof.
  intros H.
  change ("/room/" ++ c)%string
    with (String "/" (String "r" (String "o" (String "o" (String "m" (String "/" c)))))).
  rewrite split_sep, !split_other by done.
  by rewrite split_sep, split_no_sep.
Qed.

Lemma room_of_room_path req c :
  pathname req = ("/room/" ++ c)%string → RoomCode c → room_of req = toUpperCase c.
Proof.
  intros Hp Hc. unfold room_of. rewrite Hp, split_room_path.
  - unfold pop. simpl. pose proof (RoomCode_nonempty _ Hc). by destruct c.
  - destruct Hc as [_ Hc]. revert Hc. apply each_char_impl.
    intros x. apply code_unit_ok_not_slash.
Qed.






(** *** The dispatcher and the actor together *)

(** No exception leaves [RoomDO.fetch]. *)
Lemma RoomDO_fetch_returns req gone st :
  ∃ resp st' tr, RoomDO_fetch req gone st = (Ok resp, st', tr).
Proof.
  rewrite RoomDO_fetch_eq.
  destruct (not_websocket req); [eauto|].
  destruct (decide _); [eauto|]. cbn zeta.
  destruct (decide _); eauto.
Qed.

Lemma room_path_not_health (c : string) :
  String.eqb ("/room/" ++ c)%string "/health" = false.
Proof. reflexivity. Qed.

Lemma default_fetch_routes env req gone w c :
  pathname req = ("/room/" ++ c)%string → RoomCode c →
  not_websocket req = false → forbidden env req = false →
  ∃ resp inst tr,
    RoomDO_fetch req gone (instance w (toUpperCase c)) = (Ok resp, inst, tr)
    ∧ default_fetch env req gone w
      = (resp, <[toUpperCase c := inst]> w, map (pair (toUpperCase c)) tr).
Proof.
  intros Hp Hc Hu Hf.
  destruct (RoomDO_fetch_returns req gone (instance w (toUpperCase c)))
    as (resp & inst & tr & E).
  exists resp, inst, tr. split; [done|].
  unfold default_fetch. rewrite Hp, room_path_not_health.
  rewrite (proj2 (match_room_spec _ c)) by done.
  rewrite Hu, Hf. by rewrite E.
Qed.

Lemma escape_char_plain x :
  code_unit_ok (code x) → escape_char (upper_char x) = String (upper_char x) EmptyString.
Proof.
  intros H.
  assert (code_unit_ok (code (upper_char x))) as Hu.
  { unfold upper_char, is_lower. destruct (_ && _) eqn:E; [|done].
    apply andb_true_iff in E as [H1 H2]. apply Nat.leb_le in H1, H2.
    unfold code at 1. rewrite nat_ascii_embedding by lia. unfold code_unit_ok. lia. }
  revert Hu. generalize (upper_char x). clear. intros c H.
  unfold escape_char, code_unit_ok in *.
  destruct (Ascii.eqb c dq) eqn:E1.
  { apply Ascii.eqb_eq in E1 as ->. change (code dq) with 34%nat in H. lia. }
  destruct (Ascii.eqb c bsl) eqn:E2.
  { apply Ascii.eqb_eq in E2 as ->. change (code bsl) with 92%nat in H. lia. }
  repeat (destruct (_ =? _)%nat eqn:?; [apply Nat.eqb_eq in Heqb; lia|]; clear Heqb).
  destruct (_ <? _)%nat eqn:E; [apply Nat.ltb_lt in E; lia|done].
Qed.

Lemma escape_room_code c :
  each_char (λ x, code_unit_ok (code x)) c → escape (toUpperCase c) = toUpperCase c.
Proof.
  induction c as [|x c IH]; simpl; [done|]. intros [Hx Hc].
  unfold toUpperCase in *. simpl. by rewrite escape_char_plain, IH.
Qed.

Lemma append_cons x (a b : string) : (String x a ++ b = String x (a ++ b))%string.
Proof. reflexivity. Qed.

Lemma append_nil_l (b : string) : (EmptyString ++ b = b)%string.
Proof. reflexivity. Qed.

Lemma append_assoc_r (a b c : string) : ((a ++ b) ++ c = a ++ (b ++ c))%string.
Proof.
  induction a as [|x a IH]; [done|]. rewrite !append_cons. by f_equal.
Qed.

(** The text of the [ready] frame for a valid room code. *)
Lemma ready_text r c :
  RoomCode c →
  ready r (toUpperCase c)
  = TextData (wire "{'t':'ready','role':'" ++ role_name r
              ++ wire "','room':'" ++ toUpperCase c ++ wire "'}")%string.
Proof.
  intros [_ Hc]. unfold ready. f_equal.
  unfold stringify, quote. simpl map. unfold join_with.
  rewrite (escape_room_code c Hc).
  generalize (toUpperCase c). intros u.
  destruct r; simpl;
    repeat (progress rewrite ?append_cons, ?append_nil_l, ?append_assoc_r);
    reflexivity.
Qed.

Lemma peer_texts :
  peer_joined = TextData (wire "{'t':'peer','state':'joined'}")
  ∧ peer_left = TextData (wire "{'t':'peer','state':'left'}").
Proof. split; reflexivity. Qed.

Lemma RoomCode_decide c : match_room ("/room/" ++ c)%string = Some c → RoomCode c.
Proof. intros H. by apply match_room_spec in H as [_ ?]. Qed.

Lemma instance_insert w k st : instance (<[k := st]> w) k = st.
Proof. unfold instance. by rewrite lookup_insert_eq. Qed.

(** C3: in a session not yet used, the first accepted connection is sent
    [ready] with role host and the room code; the next accepted connection
    is sent [ready] with role join and the room code, after which the host
    and then the joiner are sent [peer joined].  Both upgrades are answered
    101. *)
Theorem first_two_connections (env : Env) (w : gmap string Room) (c : string)
    (r1 r2 : Request) :
  RoomCode c →
  pathname r1 = ("/room/" ++ c)%string → pathname r2 = ("/room/" ++ c)%string →
  not_websocket r1 = false → not_websocket r2 = false →
  forbidden env r1 = false → forbidden env r2 = false →
  instance w (toUpperCase c) = fresh →
  let CODE := toUpperCase c in
  ∃ w1 w2,
    default_fetch env r1 false w
    = (switching 0, w1, [(CODE, Delivered 0 (ready Host CODE))])
    ∧ default_fetch env r2 false w1
      = (switching 1, w2,
         [(CODE, Delivered 1 (ready Join CODE));
          (CODE, Delivered 0 peer_joined);
          (CODE, Delivered 1 peer_joined)])
    ∧ host (instance w2 CODE) = Some 0
    ∧ join (instance w2 CODE) = Some 1
    ∧ ready Host CODE
      = TextData (wire "{'t':'ready','role':'host','room':'" ++ CODE ++ wire "'}")%string
    ∧ ready Join CODE
      = TextData (wire "{'t':'ready','role':'join','room':'" ++ CODE ++ wire "'}")%string
    ∧ peer_joined = TextData (wire "{'t':'peer','state':'joined'}").
Proof.
  intros Hc Hp1 Hp2 Hu1 Hu2 Hf1 Hf2 Hw CODE.
  destruct (default_fetch_routes env r1 false w c Hp1 Hc Hu1 Hf1)
    as (resp1 & st1 & tr1 & E1 & D1).
  rewrite Hw, RoomDO_fetch_eq, Hu1, (room_of_room_path _ _ Hp1 Hc) in E1.
  fold CODE in E1, D1.
  assert ((Ok resp1, st1, tr1)
          = (Ok (switching 0), seat Host false fresh, [Delivered 0 (ready Host CODE)]))
    as [= -> -> ->] by (rewrite <- E1; reflexivity).
  destruct (default_fetch_routes env r2 false
              (<[CODE := seat Host false fresh]> w) c Hp2 Hc Hu2 Hf2)
    as (resp2 & st2 & tr2 & E2 & D2).
  fold CODE in E2, D2.
  rewrite instance_insert, RoomDO_fetch_eq, Hu2, (room_of_room_path _ _ Hp2 Hc) in E2.
  fold CODE in E2.
  assert ((Ok resp2, st2, tr2)
          = (Ok (switching 1), seat Join false (seat Host false fresh),
             [Delivered 1 (ready Join CODE); Delivered 0 peer_joined;
              Delivered 1 peer_joined]))
    as [= -> -> ->] by (rewrite <- E2; reflexivity).
  eexists _, _. split; [exact D1|]. split; [exact D2|].
  rewrite instance_insert.
  split; [reflexivity|]. split; [reflexivity|].
  split; [apply (ready_text Host c Hc)|].
  split; [apply (ready_text Join c Hc)|reflexivity].
Qed.

Lemma first_two_connections_witness :
  ∃ w1 w2,
    default_fetch (mkEnv None) (upgrade_to "/room/TEST1") false ∅
    = (switching 0, w1, [("TEST1", Delivered 0 (ready Host "TEST1"))])
    ∧ default_fetch (mkEnv None) (upgrade_to "/room/TEST1") false w1
      = (switching 1, w2,
         [("TEST1", Delivered 1 (ready Join "TEST1"));
          ("TEST1", Delivered 0 peer_joined);
          ("TEST1", Delivered 1 peer_joined)]).
Proof.
  destruct (first_two_connections (mkEnv None) ∅ "TEST1"
              (upgrade_to "/room/TEST1") (upgrade_to "/room/TEST1"))
    as (w1 & w2 & H1 & H2 & _); try reflexivity.
  - apply RoomCode_decide. reflexivity.
  - exists w1, w2. split; [exact H1|exact H2].
Defined.

(** C6, as stated, fails on the liveness path: [/health] is not a room
    path, and it is answered 200, not 404. *)
Lemma health_is_not_404 :
  let req := {| pathname := "/health"; upgrade := None; origin := None |} in
  match_room (pathname req) = None
  ∧ status_of (mkEnv None) req false ∅ = 200%nat
  ∧ status_of (mkEnv None) req false ∅ ≠ 404%nat.
Proof. cbv zeta. split; [reflexivity|]. split; [reflexivity|]. vm_compute. lia. Qed.

Lemma full_role_for st : full st ↔ role_for st = Spectator.
Proof. symmetry. apply role_for_spectator. Qed.

(** C6, amended: a request for a path other than [/health] is answered,
    in this order of precedence, 404 when the path is not a room path, 426
    when the Upgrade header is not [websocket], 403 when the configured
    origin is not the wildcard and differs from the Origin header, 409
    when both slots of the room are held, and 101 otherwise. *)
Theorem status_codes (env : Env) (req : Request) (gone : bool) (w : gmap string Room) :
  pathname req ≠ "/health" →
  (¬ room_path (pathname req) → status_of env req gone w = 404%nat)
  ∧ (∀ c, pathname req = ("/room/" ++ c)%string → RoomCode c →
       (not_websocket req = true → status_of env req gone w = 426%nat)
       ∧ (not_websocket req = false → forbidden env req = true →
            status_of env req gone w = 403%nat)
       ∧ (not_websocket req = false → forbidden env req = false →
            full (instance w (toUpperCase c)) → status_of env req gone w = 409%nat)
       ∧ (not_websocket req = false → forbidden env req = false →
            ¬ full (instance w (toUpperCase c)) → status_of env req gone w = 101%nat)).
Proof.
  intros Hh.
  assert (String.eqb (pathname req) "/health" = false) as Eh
    by (by apply String.eqb_neq).
  split.
  - intros Hn. unfold status_of, default_fetch. rewrite Eh.
    destruct (match_room (pathname req)) as [c|] eqn:E; [|done].
    exfalso. apply Hn. exists c. by apply match_room_spec.
  - intros c Hp Hc.
    assert (match_room (pathname req) = Some c) as Em by (by apply match_room_spec).
    split; [|split; [|split]].
    + intros Hu. unfold status_of, default_fetch. by rewrite Eh, Em, Hu.
    + intros Hu Hf. unfold status_of, default_fetch. by rewrite Eh, Em, Hu, Hf.
    + intros Hu Hf Hfull.
      destruct (default_fetch_routes env req gone w c Hp Hc Hu Hf)
        as (resp & st & tr & E & D).
      unfold status_of. rewrite D. simpl.
      rewrite RoomDO_fetch_eq, Hu in E. apply full_role_for in Hfull.
      destruct (decide _); [|done]. by injection E as <- _ _.
    + intros Hu Hf Hfull.
      destruct (default_fetch_routes env req gone w c Hp Hc Hu Hf)
        as (resp & st & tr & E & D).
      unfold status_of. rewrite D. simpl.
      rewrite RoomDO_fetch_eq, Hu in E.
      destruct (decide _) as [Hs|_]; [by apply full_role_for in Hs|].
      cbn zeta in E. destruct (decide _); by injection E as <- _ _.
Qed.

Lemma status_codes_witness :
  let ws := upgrade_to "/room/TEST1" in
  let plain := {| pathname := "/room/TEST1"; upgrade := None; origin := None |} in
  let elsewhere := {| pathname := "/room/TEST1"; upgrade := Some "websocket";
                      origin := Some "https://b.example" |} in
  status_of (mkEnv None) (upgrade_to "/nope") false ∅ = 404%nat
  ∧ status_of (mkEnv None) plain false ∅ = 426%nat
  ∧ status_of (mkEnv (Some "https://a.example")) elsewhere false ∅ = 403%nat
  ∧ status_of (mkEnv None) ws false {["TEST1" := paired]} = 409%nat
  ∧ status_of (mkEnv None) ws false ∅ = 101%nat.
Proof.
  cbv zeta.
  assert (RoomCode "TEST1") as Hc by (apply RoomCode_decide; reflexivity).
  split; [|split; [|split; [|split]]].
  - apply (status_codes (mkEnv None) (upgrade_to "/nope") false ∅); [discriminate|].
    intros (c & Hp & Hr).
    pose proof (proj2 (match_room_spec "/nope" c) (conj Hp Hr)) as H.
    vm_compute in H. discriminate H.
  - destruct (proj2 (status_codes (mkEnv None)
                 {| pathname := "/room/TEST1"; upgrade := None; origin := None |}
                 false ∅ ltac:(discriminate)) "TEST1" eq_refl Hc) as (H & _).
    apply H. reflexivity.
  - destruct (proj2 (status_codes (mkEnv (Some "https://a.example"))
                 {| pathname := "/room/TEST1"; upgrade := Some "websocket";
                    origin := Some "https://b.example" |}
                 false ∅ ltac:(discriminate)) "TEST1" eq_refl Hc) as (_ & H & _).
    apply H; reflexivity.
  - destruct (proj2 (status_codes (mkEnv None) (upgrade_to "/room/TEST1") false
                 {["TEST1" := paired]} ltac:(discriminate)) "TEST1" eq_refl Hc)
      as (_ & _ & H & _).
    apply H; try reflexivity.
    split; [exists 0|exists 1]; reflexivity.
  - destruct (proj2 (status_codes (mkEnv None) (upgrade_to "/room/TEST1") false
                 ∅ ltac:(discriminate)) "TEST1" eq_refl Hc) as (_ & _ & _ & H).
    apply H; try reflexivity.
    intros [[h Hh] _]. vm_compute in Hh. discriminate Hh.
Defined.



End RelayFacts.

(** ** Properties of the TURN token worker *)

Module TurnFacts.
Import Js Turn.
Local Open Scope list_scope.

(** Published vectors: FIPS 180 for SHA-1, RFC 2202 for HMAC-SHA-1,
    RFC 4648 for base64. *)
Example sha1_abc : hex (sha1 (encode "abc")) = "a9993e364706816aba3e25717850c26c9cd0d89d".
Proof. vm_compute. reflexivity. Qed.

Example hmac_sha1_rfc2202_case1 :
  hex (hmac_sha1 (repeat 11%Z 20) (encode "Hi There"))
  = "b617318655057264e28bc0b6fb378c8ef146be00".
Proof. vm_compute. reflexivity. Qed.

Example hmac_sha1_rfc2202_case2 :
  hex (hmac_sha1 (encode "Jefe") (encode "what do ya want for nothing?"))
  = "effcdf6ae5eb2fa2d27416d5f184df9c259a7c79".
Proof. vm_compute. reflexivity. Qed.

Example hmac_sha1_rfc2202_case6 :
  hex (hmac_sha1 (repeat 170%Z 80)
         (encode "Test Using Larger Than Block-Size Key - Hash Key First"))
  = "aa4ae5e15272d00e95705637ce8a3b55ed402112".
Proof. vm_compute. reflexivity. Qed.

Example btoa_rfc4648 :
  (btoa "f", btoa "fo", btoa "foo", btoa "foobar") = ("Zg==", "Zm8=", "Zm9v", "Zm9vYmFy").
Proof. vm_compute. reflexivity. Qed.

Example parseInt_samples :
  (parseInt "3600", parseInt " 60s", parseInt "-5", parseInt "ttl", parseInt EmptyString)
  = (Some 3600%Z, Some 60%Z, Some (-5)%Z, None, None).
Proof. vm_compute. reflexivity. Qed.

Lemma nonempty_true s : nonempty s = true ↔ s ≠ EmptyString.
Proof. by destruct s. Qed.

Lemma be_bytes_4 x : ∃ b0 b1 b2 b3, be_bytes 4 x = [b0; b1; b2; b3].
Proof. unfold be_bytes. simpl. eauto. Qed.

Lemma sha1_length msg : length (sha1 msg) = 20.
Proof.
  unfold sha1. destruct (fold_left _ _ _) as [[[[h0 h1] h2] h3] h4].
  destruct (be_bytes_4 h0) as (? & ? & ? & ? & ->).
  destruct (be_bytes_4 h1) as (? & ? & ? & ? & ->).
  destruct (be_bytes_4 h2) as (? & ? & ? & ? & ->).
  destruct (be_bytes_4 h3) as (? & ? & ? & ? & ->).
  destruct (be_bytes_4 h4) as (? & ? & ? & ? & ->).
  reflexivity.
Qed.

(** The signature is twenty bytes long whatever the key and the data. *)
Lemma hmac_sha1_length key data : length (hmac_sha1 key data) = 20.
Proof. unfold hmac_sha1. apply sha1_length. Qed.

Lemma btoa_nonempty raw : raw ≠ EmptyString → btoa raw ≠ EmptyString.
Proof. destruct raw as [|x [|y [|z r]]]; [done|by simpl..]. Qed.

Lemma encode_nonempty s : s ≠ EmptyString → encode s ≠ [].
Proof.
  destruct s as [|c r]; [done|]. intros _. simpl. unfold encode_char.
  by destruct (_ <? _)%Z.
Qed.

(** With a key of at least one byte the promise resolves. *)
Lemma hmacSha1Base64_resolves secret message :
  secret ≠ EmptyString →
  hmacSha1Base64 secret message
  = Some (btoa (fromCharCodes (hmac_sha1 (encode secret) (encode message)))).
Proof.
  intros H. apply encode_nonempty in H. unfold hmacSha1Base64.
  by destruct (encode secret).
Qed.

Lemma signature_text_nonempty key data :
  nonempty (btoa (fromCharCodes (hmac_sha1 key data))) = true.
Proof.
  apply nonempty_true, btoa_nonempty.
  pose proof (hmac_sha1_length key data) as H.
  destruct (hmac_sha1 _ _); [done|]. by simpl.
Qed.

Lemma username_nonempty (n prefix : string) :
  nonempty (n ++ ":" ++ prefix)%string = true.
Proof. by destruct n. Qed.

(** The text of a TURN entry: its three fields in order, the two strings
    quoted. *)
Lemma turn_entry_text (urls : json) (username credential : string) :
  stringify (JObj [("urls", urls); ("username", JStr username);
                   ("credential", JStr credential)])
  = (wire "{'urls':" ++ stringify urls ++ wire ",'username':" ++ quote username
     ++ wire ",'credential':" ++ quote credential ++ "}")%string.
Proof.
  cbn [stringify map fst snd join_with].
  generalize (stringify urls) (quote username) (quote credential). intros a b c.
  change (quote "urls") with (wire "'urls'").
  change (quote "username") with (wire "'username'").
  change (quote "credential") with (wire "'credential'").
  change (wire "'urls'") with (String dq ("urls" ++ String dq EmptyString))%string.
  change (wire "{'urls':")
    with (String "{" (String dq ("urls" ++ String dq ":")))%string.
  change (wire "'username'") with (String dq ("username" ++ String dq EmptyString))%string.
  change (wire ",'username':")
    with (String "," (String dq ("username" ++ String dq ":")))%string.
  change (wire "'credential'")
    with (String dq ("credential" ++ String dq EmptyString))%string.
  change (wire ",'credential':")
    with (String "," (String dq ("credential" ++ String dq ":")))%string.
  repeat (progress rewrite ?RelayFacts.append_cons, ?RelayFacts.append_nil_l,
            ?RelayFacts.append_assoc_r).
  reflexivity.
Qed.

(** C9: with no complete static username and credential pair but a shared
    secret, a GET of [/turn] from an allowed origin is answered 200 with a
    JSON body whose last ICE server is the TURN entry: its [username]
    field is the expiry in epoch seconds (the current epoch second plus
    the configured lifetime, 3600 when none is configured or the setting
    is not a number), a colon and the prefix, and its [credential] field
    is the base64 text of the HMAC-SHA-1 signature of that username under
    the shared secret. *)
Theorem derived_credentials (now : Z) (req : Request) (env : Env) :
  method req = "GET" →
  pathname req = "/turn" →
  (or_default (ALLOWED_ORIGIN env) "*" = "*"
   ∨ or_default (origin req) EmptyString = or_default (ALLOWED_ORIGIN env) "*") →
  splitCsv (TURN_URLS env) ≠ [] →
  (trim (or_default (TURN_USERNAME env) EmptyString) = EmptyString
   ∨ trim (or_default (TURN_CREDENTIAL env) EmptyString) = EmptyString) →
  trim (or_default (TURN_SHARED_SECRET env) EmptyString) ≠ EmptyString →
  let ttl := default 3600%Z (parseInt (or_default (TOKEN_TTL_SECONDS env) "3600")) in
  let expires := (now / 1000 + ttl)%Z in
  safe_integer now → safe_integer ttl → safe_integer expires →
  let secret := trim (or_default (TURN_SHARED_SECRET env) EmptyString) in
  let prefix := trim (or_default (TURN_USERNAME_PREFIX env) "ink-soccer") in
  let username := (Number_toString expires ++ ":" ++ prefix)%string in
  let credential := btoa (fromCharCodes (hmac_sha1 (encode secret) (encode username))) in
  let turn := JObj [("urls", JArr (map JStr (splitCsv (TURN_URLS env))));
                    ("username", JStr username);
                    ("credential", JStr credential)] in
  let stun := match splitCsv (STUN_URLS env) with
              | [] => []
              | _ :: _ => [JObj [("urls", JArr (map JStr (splitCsv (STUN_URLS env))))]]
              end in
  status (fetch now req env) = 200%nat
  ∧ body (fetch now req env)
    = Some (stringify (JObj [("iceServers", JArr (stun ++ [turn]))]))
  ∧ stringify turn
    = (wire "{'urls':" ++ stringify (JArr (map JStr (splitCsv (TURN_URLS env))))
       ++ wire ",'username':" ++ quote username
       ++ wire ",'credential':" ++ quote credential ++ "}")%string
  ∧ (TOKEN_TTL_SECONDS env = None → ttl = 3600%Z)
  ∧ (parseInt (or_default (TOKEN_TTL_SECONDS env) "3600") = None → ttl = 3600%Z).
Proof.
  intros Hm Hp Ho Hturn Hstatic Hsecret ttl expires _ _ _ secret prefix username
    credential turn stun.
  assert (fetch now req env
          = {| status := 200;
               headers := json_headers (corsHeaders
                 (if String.eqb (or_default (ALLOWED_ORIGIN env) "*") "*" then "*"
                  else or_default (ALLOWED_ORIGIN env) "*"));
               body := Some (stringify (JObj [("iceServers",
                 JArr (stun ++ [turn]))])) |})
    as ->.
  { unfold fetch. rewrite Hm, Hp.
    change (String.eqb "GET" "OPTIONS") with false.
    change (String.eqb "GET" "GET") with true.
    change (String.eqb "/turn" "/turn") with true.
    cbn [negb].
    assert (negb (String.eqb (or_default (ALLOWED_ORIGIN env) "*") "*")
            && negb (String.eqb (or_default (origin req) EmptyString)
                                (or_default (ALLOWED_ORIGIN env) "*")) = false) as ->.
    { destruct Ho as [-> | ->]; [done|]. rewrite String.eqb_refl. by rewrite andb_false_r. }
    destruct (splitCsv (TURN_URLS env)) as [|u us] eqn:Eu; [done|].
    assert (negb (nonempty (trim (or_default (TURN_USERNAME env) EmptyString)))
            || negb (nonempty (trim (or_default (TURN_CREDENTIAL env) EmptyString))) = true)
      as ->.
    { destruct Hstatic as [-> | ->]; [done|]. by rewrite orb_true_r. }
    rewrite (proj2 (nonempty_true _) Hsecret).
    change (hmacSha1Base64 _ _) with (hmacSha1Base64 secret username).
    rewrite (hmacSha1Base64_resolves secret username Hsecret).
    fold credential. cbv zeta.
    change (nonempty (_ ++ _)%string) with (nonempty username).
    unfold username at 1. rewrite username_nonempty. unfold credential at 1.
    rewrite signature_text_nonempty. reflexivity. }
  split; [done|]. split; [done|]. split; [|split].
  - apply turn_entry_text.
  - intros E. unfold ttl. by rewrite E.
  - intros E. unfold ttl. by rewrite E.
Qed.

Lemma derived_credentials_witness :
  let resp := fetch 1700000000123 (mkRequest "GET" "/turn" None) sample_env in
  status resp = 200%nat
  ∧ body resp
    = Some (wire ("{'iceServers':[{'urls':['stun:s.example']},"
                  ++ "{'urls':['turn:a.example:3478','turns:b.example:5349'],"
                  ++ "'username':'1700000600:ink-soccer',"
                  ++ "'credential':'Z7CknvACLbBuvdE+EKLXJBc/eFk='}]}")).
Proof.
  destruct (derived_credentials 1700000000123 (mkRequest "GET" "/turn" None) sample_env)
    as (H1 & H2 & _); try reflexivity.
  - left. reflexivity.
  - vm_compute. discriminate.
  - left. reflexivity.
  - vm_compute. discriminate.
  - unfold safe_integer. lia.
  - unfold safe_integer. vm_compute. split; reflexivity.
  - unfold safe_integer. vm_compute. split; reflexivity.
  - cbv zeta. split; [exact H1|]. rewrite H2. vm_compute. reflexivity.
Defined.

End TurnFacts.

(** ** Further properties of the relay worker *)

Module RelayMore.
Import Js Relay RelayFacts.
Local Open Scope list_scope.

#[local] Arguments send : simpl never.
#[local] Arguments attempt : simpl never.
#[local] Arguments cleanup : simpl never.

(** *** The room path and the session key *)

(** X1: the path matcher accepts exactly the paths [/room/{code}] whose
    code has four to twenty characters of the class [[A-Za-z0-9_-]], and
    captures that code; it rejects every other path. *)
Theorem room_path_shape (path : string) :
  (∀ c, match_room path = Some c ↔ path = ("/room/" ++ c)%string ∧ RoomCode c)
  ∧ (match_room path = None ↔ ¬ room_path path).
Proof.
  split; [intros c; apply match_room_spec|].
  split.
  - intros Hn (c & Hp & Hc).
    rewrite (proj2 (match_room_spec path c) (conj Hp Hc)) in Hn. done.
  - intros Hn. destruct (match_room path) as [c|] eqn:E; [|done].
    exfalso. apply Hn. exists c. by apply match_room_spec.
Qed.

Lemma upper_char_not_lower c : is_lower (upper_char c) = false.
Proof.
  unfold upper_char. destruct (is_lower c) eqn:E; [|done].
  unfold is_lower, code in *. apply andb_true_iff in E as [H1 H2].
  apply Nat.leb_le in H1, H2.
  rewrite nat_ascii_embedding by lia.
  apply andb_false_iff. left. apply Nat.leb_gt. lia.
Qed.

Lemma upper_char_idem c : upper_char (upper_char c) = upper_char c.
Proof. unfold upper_char at 1. by rewrite upper_char_not_lower. Qed.

Lemma toUpperCase_idem s : toUpperCase (toUpperCase s) = toUpperCase s.
Proof.
  unfold toUpperCase. induction s as [|c s IH]; simpl; [done|].
  by rewrite upper_char_idem, IH.
Qed.

Lemma toUpperCase_no_lower s : each_char (λ x, is_lower x = false) (toUpperCase s).
Proof.
  unfold toUpperCase. induction s as [|c s IH]; simpl; [done|].
  split; [apply upper_char_not_lower|done].
Qed.

Lemma upper_char_ok c : code_unit_ok (code c) → code_unit_ok (code (upper_char c)).
Proof.
  intros H. unfold upper_char, is_lower. destruct (_ && _) eqn:E; [|done].
  apply andb_true_iff in E as [H1 H2]. apply Nat.leb_le in H1, H2.
  unfold code in *. rewrite nat_ascii_embedding by lia. unfold code_unit_ok. lia.
Qed.

Lemma toUpperCase_length s : String.length (toUpperCase s) = String.length s.
Proof. unfold toUpperCase. induction s as [|c s IH]; simpl; [done|]. by rewrite IH. Qed.

Lemma toUpperCase_RoomCode c : RoomCode c → RoomCode (toUpperCase c).
Proof.
  intros [Hl Hc]. split; [by rewrite toUpperCase_length|].
  clear Hl. unfold toUpperCase. induction c as [|x c IH]; simpl; [done|].
  destruct Hc as [Hx Hc]. split; [by apply upper_char_ok|by apply IH].
Qed.

(** X2: the session key of a room path, the captured code in upper case,
    is itself a valid room code, has no lower-case letter, is unchanged by
    a second upper-casing, and names the same session as the path it came
    from. *)
Theorem session_key_normal_form (path c : string) :
  match_room path = Some c →
  let key := toUpperCase c in
  RoomCode key
  ∧ each_char (λ x, is_lower x = false) key
  ∧ toUpperCase key = key
  ∧ match_room ("/room/" ++ key)%string = Some key.
Proof.
  intros Hm key. apply match_room_spec in Hm as [_ Hc].
  pose proof (toUpperCase_RoomCode c Hc) as Hk.
  split; [done|]. split; [apply toUpperCase_no_lower|].
  split; [apply toUpperCase_idem|]. by apply match_room_spec.
Qed.

Lemma session_key_normal_form_witness :
  RoomCode "AB-C_9Z" ∧ toUpperCase "AB-C_9Z" = "AB-C_9Z".
Proof.
  destruct (session_key_normal_form "/room/ab-c_9z" "ab-c_9z" eq_refl)
    as (H1 & _ & H3 & _).
  split; [exact H1|exact H3].
Defined.

(** *** The dispatcher and the namespace of rooms *)

Lemma full_instance_present w k : role_for (instance w k) = Spectator → w !! k = Some (instance w k).
Proof. unfold instance. by destruct (w !! k). Qed.

(** X3: a request that is not answered 101 leaves no trace: every room
    of the namespace is as before and no frame is sent.  This covers the
    liveness path, the 404, 426 and 403 of the dispatcher and the 409 of a
    full room. *)
Theorem rejection_leaves_no_trace (env : Env) (req : Request) (gone : bool)
    (w : gmap string Room) :
  status_of env req gone w ≠ 101%nat →
  snd (fst (default_fetch env req gone w)) = w
  ∧ snd (default_fetch env req gone w) = [].
Proof.
  unfold status_of, default_fetch.
  destruct (String.eqb _ _); [done|].
  destruct (match_room _) as [c|]; [|done].
  destruct (not_websocket req) eqn:Hu; [done|].
  destruct (forbidden env req); [done|].
  rewrite RoomDO_fetch_eq, Hu.
  destruct (decide _) as [Hs|Hs].
  - intros _. simpl. split; [|done].
    apply insert_id. by apply full_instance_present.
  - cbn zeta. by destruct (decide _).
Qed.

Lemma rejection_leaves_no_trace_witness :
  default_fetch (mkEnv None) (upgrade_to "/room/test1") false {["TEST1" := paired]}
  = (bad "Room is full" 409, {["TEST1" := paired]}, []).
Proof.
  pose proof (rejection_leaves_no_trace (mkEnv None) (upgrade_to "/room/test1")
                false {["TEST1" := paired]}) as H.
  destruct H as [H1 H2]; [vm_compute; lia|].
  destruct (default_fetch _ _ _ _) as [[resp w'] tr] eqn:E.
  simpl in H1, H2. subst w' tr.
  f_equal. f_equal. apply (f_equal (λ x, fst (fst x))) in E. simpl in E.
  rewrite <- E. reflexivity.
Defined.

(** X4: rooms are isolated.  A request changes no room but the one its
    path names, and every frame it causes is sent by that room. *)
Theorem rooms_are_isolated (env : Env) (req : Request) (gone : bool)
    (w : gmap string Room) (k : string) :
  (∀ c, match_room (pathname req) = Some c → toUpperCase c ≠ k) →
  snd (fst (default_fetch env req gone w)) !! k = w !! k
  ∧ ∀ e, (k, e) ∉ snd (default_fetch env req gone w).
Proof.
  intros Hk. unfold default_fetch.
  destruct (String.eqb _ _); [split; [done|intros e; apply not_elem_of_nil]|].
  destruct (match_room _) as [c|]; [|split; [done|intros e; apply not_elem_of_nil]].
  specialize (Hk c eq_refl).
  destruct (not_websocket req); [split; [done|intros e; apply not_elem_of_nil]|].
  destruct (forbidden env req); [split; [done|intros e; apply not_elem_of_nil]|].
  destruct (RoomDO_fetch req gone (instance w (toUpperCase c))) as [[[resp|] inst] tr];
    simpl; (split; [by rewrite lookup_insert_ne|]);
    intros e [x [[= -> _] _]]%list_elem_of_fmap; done.
Qed.

Lemma rooms_are_isolated_witness :
  snd (fst (default_fetch (mkEnv None) (upgrade_to "/room/other") false
              {["TEST1" := paired]})) !! "TEST1" = Some paired.
Proof.
  destruct (rooms_are_isolated (mkEnv None) (upgrade_to "/room/other") false
              {["TEST1" := paired]} "TEST1") as [H _].
  - intros c Hc. vm_compute in Hc. injection Hc as <-. vm_compute. discriminate.
  - rewrite H. reflexivity.
Defined.

(** *** The actor *)

Lemma handle_hangup s st :
  handle (Hangup s) st
  = (Ok None, if listeners st !! s is Some _ then shut_state s st else st, []).
Proof.
  unfold handle, bind, get, ret. simpl.
  by destruct (listeners st !! s).
Qed.

Lemma handle_message_unknown from d st :
  listeners st !! from = None → handle (Message from d) st = (Ok None, st, []).
Proof. intros H. unfold handle, bind, get, ret. simpl. by rewrite H. Qed.

Lemma handle_depart_unknown from st :
  listeners st !! from = None →
  handle (Close from) st = (Ok None, st, [])
  ∧ handle (Error from) st = (Ok None, st, []).
Proof. intros H. unfold handle, bind, get, ret. simpl. by rewrite H. Qed.

(** X5: no exception leaves a handler, whatever the event and the state:
    every [send] that can raise is caught.  A connect is answered 426 or
    409 with the actor untouched and nothing sent, or 101 with the client
    end of a newly created pair whose server end got its listeners. *)
Theorem handlers_never_throw (st : Room) :
  (∀ ev, ∃ r, answer st ev = Ok r)
  ∧ (∀ req gone, ∃ resp,
       answer st (Connect req gone) = Ok (Some resp)
       ∧ ((status resp = 426%nat ∨ status resp = 409%nat)
            ∧ webSocket resp = None
            ∧ step st (Connect req gone) = st
            ∧ emitted st (Connect req gone) = []
          ∨ resp = switching (created st)
            ∧ created (step st (Connect req gone)) = S (created st)
            ∧ listeners (step st (Connect req gone)) !! created st
              = Some (role_for st))).
Proof.
  assert (∀ req gone, ∃ resp,
       answer st (Connect req gone) = Ok (Some resp)
       ∧ ((status resp = 426%nat ∨ status resp = 409%nat)
            ∧ webSocket resp = None
            ∧ step st (Connect req gone) = st
            ∧ emitted st (Connect req gone) = []
          ∨ resp = switching (created st)
            ∧ created (step st (Connect req gone)) = S (created st)
            ∧ listeners (step st (Connect req gone)) !! created st
              = Some (role_for st))) as Hc.
  { intros req gone. unfold answer, step, emitted, handle, bind, ret.
    rewrite RoomDO_fetch_eq.
    destruct (not_websocket req); [eexists; split; [done|]; left; simpl; auto|].
    destruct (decide _) as [|Hr]; [eexists; split; [done|]; left; simpl; auto|].
    cbn zeta.
    assert (∀ g, listeners (vacate (role_for st) (created st) (seat (role_for st) g st))
                 !! created st = Some (role_for st)
               ∧ created (vacate (role_for st) (created st) (seat (role_for st) g st))
                 = S (created st)) as Hv.
    { intros g. destruct (role_for st); simpl; try case_bool_decide; simpl;
        by rewrite lookup_insert_eq. }
    destruct (decide _); simpl; eexists; (split; [done|]); right.
    - destruct (Hv gone) as [? ?]. auto.
    - split; [done|]. split; [done|]. by rewrite lookup_insert_eq. }
  split; [|exact Hc].
  intros [req gone|from d|from|from|s].
  - destruct (Hc req gone) as (resp & E & _). eauto.
  - unfold answer. destruct (listeners st !! from) as [role|] eqn:E.
    + rewrite (handle_message _ _ _ _ E). eauto.
    + rewrite (handle_message_unknown _ _ _ E). eauto.
  - unfold answer. destruct (listeners st !! from) as [role|] eqn:E.
    + rewrite (proj1 (handle_depart _ _ _ E)). eauto.
    + rewrite (proj1 (handle_depart_unknown _ _ E)). eauto.
  - unfold answer. destruct (listeners st !! from) as [role|] eqn:E.
    + rewrite (proj2 (handle_depart _ _ _ E)). eauto.
    + rewrite (proj2 (handle_depart_unknown _ _ E)). eauto.
  - unfold answer. rewrite handle_hangup. eauto.
Qed.

Lemma slot_created st r s : wf st → slot r st = Some s → s < created st.
Proof.
  intros Hwf Hs. apply (wf_created st Hwf).
  exists r. by apply slot_listener.
Qed.

Lemma target_created st r p : wf st → target_of r st = Some p → p < created st.
Proof.
  intros Hwf Hp. unfold target_of in Hp.
  destruct (decide _); [by apply (slot_created st Join)|by apply (slot_created st Host)].
Qed.

(** X6: when the first [send] to a newly accepted socket raises, the
    upgrade is still answered 101, but the socket does not keep its slot:
    both slots are as before the connect.  [ready] is not delivered,
    [peer joined] is not sent, and the occupant of the opposite slot, if
    any, is sent [peer left]. *)
Theorem failed_greeting_frees_slot (st : Room) (req : Request) :
  reachable st → not_websocket req = false → ¬ full st →
  answer st (Connect req true) = Ok (Some (switching (created st)))
  ∧ host (step st (Connect req true)) = host st
  ∧ join (step st (Connect req true)) = join st
  ∧ emitted st (Connect req true)
    = Raised (created st) (ready (role_for st) (room_of req))
      :: match target_of (role_for st) st with
         | Some p => [sent st p peer_left]
         | None => []
         end.
Proof.
  intros Hre Hu Hfull. pose proof (wf_reachable _ Hre) as Hwf.
  assert (Hr : role_for st ≠ Spectator) by (by rewrite <- full_role_for).
  unfold answer, step, emitted, handle, bind, ret.
  rewrite RoomDO_fetch_eq, Hu.
  destruct (decide _) as [|_]; [done|]. cbn zeta.
  destruct (decide _) as [_|Hn]; [|exfalso; apply Hn; simpl; set_solver].
  simpl. split; [done|].
  destruct (role_for st) eqn:Er; [| |done].
  - pose proof (role_for_host _ Er) as Hh. simpl.
    rewrite bool_decide_eq_true_2 by done. simpl.
    split; [done|]. split; [done|]. f_equal. rewrite app_nil_r.
    unfold farewell, target_of. simpl.
    destruct (join st) as [p|] eqn:Ej; [|done].
    f_equal. unfold sent. simpl.
    assert (p < created st) by (by apply (slot_created st Join)).
    destruct (decide (p ∈ closed st)) as [H1|H1],
             (decide (p ∈ {[created st]} ∪ closed st)) as [H2|H2]; try done.
    + exfalso. apply H2, elem_of_union. by right.
    + apply elem_of_union in H2 as [H2%elem_of_singleton|H2]; [lia|done].
  - pose proof (role_for_join _ Er) as [_ Hj]. simpl.
    rewrite bool_decide_eq_true_2 by done. simpl.
    split; [done|]. split; [done|]. f_equal. rewrite app_nil_r.
    unfold farewell, target_of. simpl.
    destruct (host st) as [p|] eqn:Eh; [|done].
    f_equal. unfold sent. simpl.
    assert (p < created st) by (by apply (slot_created st Host)).
    destruct (decide (p ∈ closed st)) as [H1|H1],
             (decide (p ∈ {[created st]} ∪ closed st)) as [H2|H2]; try done.
    + exfalso. apply H2, elem_of_union. by right.
    + apply elem_of_union in H2 as [H2%elem_of_singleton|H2]; [lia|done].
Qed.

Lemma failed_greeting_frees_slot_witness :
  let st := run [Connect (upgrade_to "/room/TEST1") false] fresh in
  let ev := Connect (upgrade_to "/room/TEST1") true in
  answer st ev = Ok (Some (switching 1))
  ∧ host (step st ev) = Some 0
  ∧ join (step st ev) = None
  ∧ emitted st ev = [Raised 1 (ready Join "TEST1"); Delivered 0 peer_left].
Proof.
  destruct (failed_greeting_frees_slot
              (run [Connect (upgrade_to "/room/TEST1") false] fresh)
              (upgrade_to "/room/TEST1")) as (H1 & H2 & H3 & H4).
  - eexists. reflexivity.
  - reflexivity.
  - intros [_ [j Hj]]. vm_compute in Hj. discriminate Hj.
  - cbv zeta. split; [exact H1|]. split; [exact H2|]. split; [exact H3|].
    rewrite H4. reflexivity.
Defined.

(** X7: a message event never changes the actor and causes at most one
    frame, which never goes back to the connection the message came
    from. *)
Theorem message_is_never_echoed (st : Room) (from : sock) (d : WsData) :
  reachable st →
  step st (Message from d) = st
  ∧ (length (emitted st (Message from d)) ≤ 1)%nat
  ∧ ∀ e, e ∈ emitted st (Message from d) → effect_target e ≠ from.
Proof.
  intros Hre. pose proof (wf_reachable _ Hre) as Hwf.
  split; [apply step_message|]. unfold emitted.
  destruct (listeners st !! from) as [role|] eqn:E.
  - rewrite (handle_message _ _ _ _ E). simpl.
    destruct (target_of role st) as [t|] eqn:Et; simpl; [|split; [lia|]].
    + split; [lia|]. intros e ->%list_elem_of_singleton.
      assert (effect_target (sent st t (TextData (payload_of d))) = t) as ->
        by (unfold sent; by destruct (decide _)).
      intros ->. unfold target_of in Et.
      destruct (decide (role = Host)) as [->|Hn].
      * apply (wf_join st Hwf) in Et. congruence.
      * apply (wf_host st Hwf) in Et. congruence.
    + intros e He. by apply not_elem_of_nil in He.
  - rewrite (handle_message_unknown _ _ _ E). simpl. split; [lia|].
    intros e He. by apply not_elem_of_nil in He.
Qed.

Lemma message_is_never_echoed_witness :
  step paired (Message 1 (TextData "hi")) = paired
  ∧ emitted paired (Message 1 (TextData "hi")) = [Delivered 0 (TextData "hi")].
Proof.
  destruct (message_is_never_echoed paired 1 (TextData "hi")) as (H1 & _ & _).
  - eexists. reflexivity.
  - split; [exact H1|reflexivity].
Defined.

Lemma run_burst from ds st : run (burst from ds) st = st.
Proof.
  induction ds as [|d ds IH]; simpl; [done|].
  unfold run in *. simpl. by rewrite step_message.
Qed.

(** X8: the frames of one sender reach its peer in the order sent.  While
    the opposite slot holds an open socket, a burst of frames from one
    connection is forwarded to it frame by frame in the same order, each
    as a text frame, and the actor is unchanged. *)
Theorem sender_order_preserved (st : Room) (from : sock) (role : Role) (t : sock)
    (ds : list WsData) :
  listeners st !! from = Some role →
  target_of role st = Some t →
  t ∉ closed st →
  transcript (burst from ds) st
  = map (λ d, Delivered t (TextData (payload_of d))) ds
  ∧ run (burst from ds) st = st.
Proof.
  intros Hl Ht Hc. split; [|apply run_burst].
  induction ds as [|d ds IH]; simpl; [done|].
  rewrite step_message, IH. unfold emitted.
  rewrite (handle_message _ _ _ _ Hl), Ht. simpl.
  unfold sent. by destruct (decide _).
Qed.

Lemma sender_order_preserved_witness :
  transcript (burst 0 [TextData "offer"; TextData "ice-1"; TextData "ice-2"]) paired
  = [Delivered 1 (TextData "offer"); Delivered 1 (TextData "ice-1");
     Delivered 1 (TextData "ice-2")].
Proof.
  apply (sender_order_preserved paired 0 Host 1
           [TextData "offer"; TextData "ice-1"; TextData "ice-2"]);
    [reflexivity|reflexivity|vm_compute; discriminate].
Defined.

Lemma target_of_vacate role x st : target_of role (vacate role x st) = target_of role st.
Proof. destruct role; simpl; try case_bool_decide; done. Qed.

(** X9: [cleanup] notifies the opposite slot on every close or error event
    of an accepted connection, whether or not that connection still holds
    its slot.  So an error followed by a close, or the late close of a
    connection that was replaced, sends the occupant of the opposite slot
    a [peer left] although no slot is vacated. *)
Theorem every_departure_is_announced (st : Room) (from : sock) (role : Role) (p : sock) :
  listeners st !! from = Some role →
  target_of role st = Some p →
  p ≠ from → p ∉ closed st →
  emitted st (Close from) = [Delivered p peer_left]
  ∧ emitted st (Error from) = [Delivered p peer_left].
Proof.
  intros Hl Ht Hne Hc.
  destruct (handle_depart _ _ _ Hl) as [E1 E2]. unfold emitted.
  rewrite E1, E2. simpl.
  assert (farewell role (depart from st) = [Delivered p peer_left]); [|done].
  unfold depart. rewrite Hl. unfold farewell.
  fold (target_of role (vacate role from (shut_state from st))).
  rewrite target_of_vacate.
  assert (target_of role (shut_state from st) = Some p) as -> by (by destruct role).
  unfold sent. destruct (decide _) as [Hin|]; [|done].
  exfalso.
  assert (closed (vacate role from (shut_state from st)) = {[from]} ∪ closed st) as Hcl
    by (destruct role; simpl; try case_bool_decide; done).
  rewrite Hcl in Hin.
  apply elem_of_union in Hin as [Hin%elem_of_singleton|Hin]; done.
Qed.

Lemma every_departure_is_announced_witness :
  host host_replaced = Some 2
  ∧ join host_replaced = Some 1
  ∧ emitted host_replaced (Close 0) = [Delivered 1 peer_left]
  ∧ host (step host_replaced (Close 0)) = Some 2.
Proof.
  split; [reflexivity|]. split; [reflexivity|]. split; [|reflexivity].
  apply (every_departure_is_announced host_replaced 0 Host 1);
    [reflexivity|reflexivity|lia|vm_compute; discriminate].
Defined.

Lemma sent_target st t d : effect_target (sent st t d) = t.
Proof. unfold sent. by destruct (decide _). Qed.

Lemma farewell_targets role st e :
  wf st → e ∈ farewell role st → is_Some (listeners st !! effect_target e).
Proof.
  intros Hwf. unfold farewell.
  destruct (if decide (role = Host) then join st else host st) as [p|] eqn:E.
  - intros ->%list_elem_of_singleton. rewrite sent_target.
    destruct (decide (role = Host)).
    + rewrite (wf_join st Hwf _ E). eauto.
    + rewrite (wf_host st Hwf _ E). eauto.
  - intros He. by apply not_elem_of_nil in He.
Qed.

Lemma greet_targets st e :
  wf st → e ∈ greet st → is_Some (listeners st !! effect_target e).
Proof.
  intros Hwf. unfold greet.
  destruct (host st) as [h|] eqn:Eh; [|intros He; by apply not_elem_of_nil in He].
  destruct (join st) as [j|] eqn:Ej; [|intros He; by apply not_elem_of_nil in He].
  intros [->|He]%elem_of_cons.
  - rewrite sent_target, (wf_host _ Hwf _ Eh). eauto.
  - apply list_elem_of_singleton in He as ->.
    rewrite sent_target, (wf_join _ Hwf _ Ej). eauto.
Qed.

(** X10: frames only go to sockets the actor accepted.  Whatever event a
    reachable actor handles, the target of every [send] it makes has its
    listeners registered with the actor afterwards. *)
Theorem frames_only_to_accepted (st : Room) (ev : Event) (e : Effect) :
  reachable st →
  e ∈ emitted st ev →
  is_Some (listeners (step st ev) !! effect_target e).
Proof.
  intros Hre. pose proof (wf_reachable _ Hre) as Hwf.
  pose proof (wf_step st ev Hwf) as Hwf'.
  destruct ev as [req gone|from d|from|from|s].
  - unfold emitted, step, handle, bind, ret in *. rewrite RoomDO_fetch_eq in *.
    destruct (not_websocket req); [intros He; by apply not_elem_of_nil in He|].
    destruct (decide _) as [|Hr]; [intros He; by apply not_elem_of_nil in He|].
    cbn zeta in *. destruct (decide _) as [Hc|Hc]; cbn [fst snd] in *;
      rewrite app_nil_r.
    + intros [->|He]%elem_of_cons.
      * cbn [effect_target].
        destruct (role_for st); simpl; try case_bool_decide; simpl;
          rewrite lookup_insert_eq; eauto.
      * by apply farewell_targets in He.
    + intros [->|He]%elem_of_cons.
      * cbn [effect_target]. unfold seat. cbn [listeners].
        rewrite lookup_insert_eq. eauto.
      * by apply greet_targets in He.
  - rewrite step_message. unfold emitted.
    destruct (listeners st !! from) as [role|] eqn:E.
    + rewrite (handle_message _ _ _ _ E). simpl.
      destruct (target_of role st) as [t|] eqn:Et;
        [|intros He; by apply not_elem_of_nil in He].
      intros ->%list_elem_of_singleton. rewrite sent_target.
      unfold target_of in Et. destruct (decide _).
      * rewrite (wf_join st Hwf _ Et). eauto.
      * rewrite (wf_host st Hwf _ Et). eauto.
    + rewrite (handle_message_unknown _ _ _ E). simpl.
      intros He. by apply not_elem_of_nil in He.
  - unfold emitted, step in *. destruct (listeners st !! from) as [role|] eqn:E.
    + rewrite (proj1 (handle_depart _ _ _ E)) in *. simpl in *.
      by apply farewell_targets.
    + rewrite (proj1 (handle_depart_unknown _ _ E)). simpl.
      intros He. by apply not_elem_of_nil in He.
  - unfold emitted, step in *. destruct (listeners st !! from) as [role|] eqn:E.
    + rewrite (proj2 (handle_depart _ _ _ E)) in *. simpl in *.
      by apply farewell_targets.
    + rewrite (proj2 (handle_depart_unknown _ _ E)). simpl.
      intros He. by apply not_elem_of_nil in He.
  - unfold emitted. rewrite handle_hangup. simpl.
    intros He. by apply not_elem_of_nil in He.
Qed.

Lemma frames_only_to_accepted_witness :
  is_Some (listeners (step paired (Close 1)) !! 0).
Proof.
  apply (frames_only_to_accepted paired (Close 1) (Delivered 0 peer_left)).
  - eexists. reflexivity.
  - vm_compute. apply list_elem_of_here.
Defined.

(** X11: one connection never holds both slots, and every connection in a
    slot carries the role of that slot in its listeners. *)
Theorem slots_hold_distinct_connections (st : Room) (a b : sock) :
  reachable st → host st = Some a → join st = Some b →
  a ≠ b ∧ listeners st !! a = Some Host ∧ listeners st !! b = Some Join.
Proof.
  intros Hre Ha Hb. pose proof (wf_reachable _ Hre) as Hwf.
  pose proof (wf_host st Hwf _ Ha) as La. pose proof (wf_join st Hwf _ Hb) as Lb.
  split; [|done]. intros ->. congruence.
Qed.

Lemma slots_hold_distinct_connections_witness :
  listeners host_replaced !! 2 = Some Host ∧ listeners host_replaced !! 1 = Some Join.
Proof.
  apply (slots_hold_distinct_connections host_replaced 2 1);
    [|reflexivity|reflexivity].
  exists [Connect (upgrade_to "/room/TEST1") false;
          Connect (upgrade_to "/room/TEST1") false;
          Error 0; Connect (upgrade_to "/room/TEST1") false].
  reflexivity.
Defined.

(** X22: [peer joined] is sent exactly when the accepted connection finds
    the opposite slot occupied, whichever slot it fills itself: after the
    [ready] frame of the new connection, the host and then the joiner are
    each sent [peer joined]; otherwise [ready] is the only frame. *)
Theorem pairing_is_announced (st : Room) (req : Request) :
  reachable st → not_websocket req = false → ¬ full st →
  let st' := step st (Connect req false) in
  let server := created st in
  (target_of (role_for st) st = None →
     emitted st (Connect req false)
     = [Delivered server (ready (role_for st) (room_of req))]
     ∧ ¬ full st')
  ∧ (∀ p, target_of (role_for st) st = Some p →
     ∃ h j, host st' = Some h ∧ join st' = Some j
            ∧ (h = p ∧ j = server ∨ h = server ∧ j = p)
            ∧ emitted st (Connect req false)
              = [Delivered server (ready (role_for st) (room_of req));
                 sent st h peer_joined; sent st j peer_joined]).
Proof.
  intros Hre Hu Hfull st' server. pose proof (wf_reachable _ Hre) as Hwf.
  assert (Hr : role_for st ≠ Spectator) by (by rewrite <- full_role_for).
  unfold st', emitted, step. rewrite (handle_connect_open _ _ Hwf Hu Hr).
  cbn [fst snd]. unfold greet, full, target_of.
  destruct (role_for st) eqn:Er; [| |done]; simpl.
  - pose proof (role_for_host _ Er) as Hh. split.
    + intros ->. split; [done|]. by intros [_ [? ?]].
    + intros p ->. exists server, p. repeat split; auto.
  - pose proof (role_for_join _ Er) as [[h Hh] Hj]. rewrite Hh. split.
    + done.
    + intros p [= <-]. exists h, server. repeat split; auto.
Qed.

Lemma pairing_is_announced_witness :
  emitted joiner_alone (Connect (upgrade_to "/room/TEST1") false)
  = [Delivered 2 (ready Host "TEST1"); Delivered 2 peer_joined; Delivered 1 peer_joined].
Proof.
  destruct (pairing_is_announced joiner_alone (upgrade_to "/room/TEST1"))
    as [_ H].
  - exists [Connect (upgrade_to "/room/TEST1") false;
            Connect (upgrade_to "/room/TEST1") false; Close 0]. reflexivity.
  - reflexivity.
  - intros [[h Hh] _]. vm_compute in Hh. discriminate Hh.
  - destruct (H 1 eq_refl) as (h & j & Hh & Hj & _ & He).
    vm_compute in Hh, Hj. injection Hh as <-. injection Hj as <-.
    rewrite He. reflexivity.
Defined.

(** *** The checks of the upgrade request *)

Lemma same_letter_lower x y : same_letter x y → lower_char x = lower_char y.
Proof.
  assert (∀ a b, is_upper a = true → code b = (code a + 32)%nat
                 → lower_char a = lower_char b) as H.
  { intros a b Ha Hb. unfold lower_char. rewrite Ha.
    unfold is_upper in *. apply andb_true_iff in Ha as [H1 H2].
    apply Nat.leb_le in H1, H2. rewrite Hb.
    replace ((code a + 32 <=? 90)%nat) with false by (symmetry; apply Nat.leb_gt; lia).
    rewrite andb_false_r. rewrite <- Hb. unfold code. by rewrite ascii_nat_embedding. }
  intros [->|[[Hu Hc]|[Hu Hc]]]; [done|by apply H|symmetry; by apply H].
Qed.

Lemma differ_only_in_case_lower a b :
  differ_only_in_case a b → toLowerCase a = toLowerCase b.
Proof.
  revert b. induction a as [|x a IH]; intros [|y b]; simpl; try done.
  intros [Hxy Hab]. unfold toLowerCase in *. simpl.
  by rewrite (same_letter_lower _ _ Hxy), (IH _ Hab).
Qed.

(** X12: the Upgrade header is accepted in any letter case: a request
    whose Upgrade header is [websocket] with any of its letters in upper
    case passes the websocket check, and a request with no Upgrade header
    does not pass. *)
Theorem upgrade_header_case_insensitive (req : Request) :
  (upgrade req = None → not_websocket req = true)
  ∧ (∀ v, upgrade req = Some v → differ_only_in_case v "websocket" →
       not_websocket req = false).
Proof.
  unfold not_websocket. split.
  - by intros ->.
  - intros v -> Hd. apply differ_only_in_case_lower in Hd.
    rewrite Hd. reflexivity.
Qed.

Lemma upgrade_header_case_insensitive_witness :
  not_websocket {| pathname := "/room/TEST1"; upgrade := Some "WebSocket";
                   origin := None |} = false
  ∧ not_websocket {| pathname := "/room/TEST1"; upgrade := None;
                     origin := None |} = true.
Proof.
  split.
  - apply (proj2 (upgrade_header_case_insensitive
                    {| pathname := "/room/TEST1"; upgrade := Some "WebSocket";
                       origin := None |}) "WebSocket" eq_refl).
    simpl. repeat split; first [by left | right; left; split; reflexivity].
  - apply (proj1 (upgrade_header_case_insensitive
                    {| pathname := "/room/TEST1"; upgrade := None;
                       origin := None |})). reflexivity.
Defined.

(** X13: the origin check is an exact comparison against one configured
    origin.  A room-path upgrade request is answered 403 exactly when an
    origin other than the empty string and the wildcard is configured and
    the Origin header is absent or differs from it in any way; with no
    origin configured, or the empty string, every origin passes. *)
Theorem origin_gate (env : Env) (req : Request) (gone : bool) (w : gmap string Room) :
  room_path (pathname req) → not_websocket req = false →
  (status_of env req gone w = 403%nat
   ↔ ∃ a, ALLOWED_ORIGIN env = Some a ∧ a ≠ EmptyString ∧ a ≠ "*"
          ∧ origin req ≠ Some a).
Proof.
  intros (c & Hp & Hc) Hu.
  assert (forbidden env req = true
          ↔ ∃ a, ALLOWED_ORIGIN env = Some a ∧ a ≠ EmptyString ∧ a ≠ "*"
                 ∧ origin req ≠ Some a) as Hf.
  { unfold forbidden. rewrite andb_true_iff, !negb_true_iff, !String.eqb_neq.
    split.
    - intros [H1 H2]. destruct (ALLOWED_ORIGIN env) as [[|x a]|]; simpl in *; try done.
      exists (String x a). repeat split; try done.
      intros E. rewrite E in H2. done.
    - intros (a & -> & Ha & Hs & Ho). destruct a as [|x a]; [done|]. simpl.
      split; [done|]. destruct (origin req) as [[|y o]|]; simpl; congruence. }
  rewrite <- Hf.
  destruct (forbidden env req) eqn:E.
  - split; [done|]. intros _. unfold status_of, default_fetch.
    rewrite Hp, room_path_not_health, (proj2 (match_room_spec _ c)) by done.
    by rewrite Hu, E.
  - split; [|done]. intros H. exfalso.
    destruct (default_fetch_routes env req gone w c Hp Hc Hu E)
      as (resp & inst & tr & Er & Ed).
    unfold status_of in H. rewrite Ed in H. simpl in H.
    rewrite RoomDO_fetch_eq, Hu in Er.
    destruct (decide _); [injection Er as <- _ _; done|].
    cbn zeta in Er. destruct (decide _); injection Er as <- _ _; done.
Qed.

Lemma origin_gate_witness :
  status_of (mkEnv (Some "https://a.example")) (upgrade_to "/room/TEST1") false ∅
  = 403%nat.
Proof.
  apply (origin_gate (mkEnv (Some "https://a.example")) (upgrade_to "/room/TEST1")
           false ∅).
  - exists "TEST1". split; [reflexivity|]. apply RoomCode_decide. reflexivity.
  - reflexivity.
  - exists "https://a.example". repeat split; discriminate.
Defined.

End RelayMore.

(** ** Further properties of the TURN token worker *)

Module TurnMore.
Import Js Turn TurnFacts.
Local Open Scope list_scope.

Lemma fetch_let_through now req env :
  let_through req env →
  fetch now req env
  = let turnUrls := splitCsv (TURN_URLS env) in
    let cors := corsHeaders (cors_origin env) in
    match turnUrls with
    | [] => {| status := 500; headers := json_headers cors;
               body := error_body "TURN_URLS is empty" |}
    | _ :: _ =>
        let username := trim (or_default (TURN_USERNAME env) EmptyString) in
        let credential := trim (or_default (TURN_CREDENTIAL env) EmptyString) in
        let derived :=
          if negb (nonempty username) || negb (nonempty credential) then
            let sharedSecret := trim (or_default (TURN_SHARED_SECRET env) EmptyString) in
            if nonempty sharedSecret then
              let ttl := parseInt (or_default (TOKEN_TTL_SECONDS env) "3600") in
              let expires := (now / 1000 + match ttl with Some t => t | None => 3600 end)%Z in
              let prefix := trim (or_default (TURN_USERNAME_PREFIX env) "ink-soccer") in
              let username := (Number_toString expires ++ ":" ++ prefix)%string in
              match hmacSha1Base64 sharedSecret username with
              | Some credential => Some (username, credential)
              | None => None
              end
            else Some (username, credential)
          else Some (username, credential) in
        match derived with
        | None => uncaught
        | Some (username, credential) =>
            if negb (nonempty username) || negb (nonempty credential)
            then {| status := 500; headers := json_headers cors;
                    body := error_body
                      "Set TURN_USERNAME + TURN_CREDENTIAL or TURN_SHARED_SECRET" |}
            else {| status := 200; headers := json_headers cors;
                    body := ice_body env username credential |}
        end
    end.
Proof.
  intros (Hm & Hp & Ho). unfold fetch, cors_origin in *. rewrite Hm, Hp.
  change (String.eqb "GET" "OPTIONS") with false.
  change (String.eqb "GET" "GET") with true.
  change (String.eqb "/turn" "/turn") with true.
  cbn [negb].
  assert ((if String.eqb (or_default (ALLOWED_ORIGIN env) "*") "*" then "*"
           else or_default (ALLOWED_ORIGIN env) "*")
          = or_default (ALLOWED_ORIGIN env) "*") as ->.
  { destruct (String.eqb _ _) eqn:E; [|done]. by apply String.eqb_eq in E. }
  assert (negb (String.eqb (or_default (ALLOWED_ORIGIN env) "*") "*")
          && negb (String.eqb (or_default (origin req) EmptyString)
                              (or_default (ALLOWED_ORIGIN env) "*")) = false) as ->.
  { destruct Ho as [-> | ->]; [done|]. rewrite String.eqb_refl. by rewrite andb_false_r. }
  reflexivity.
Qed.

(** X14: with a static username and a static credential configured, both
    non-empty once trimmed, the answer is 200 and the TURN entry that ends
    its list of ICE servers has exactly these two trimmed values as its
    [username] and [credential] fields.  The shared secret, the lifetime,
    the prefix and the clock play no part. *)
Theorem static_credentials_win (now : Z) (req : Request) (env : Env) :
  let_through req env →
  splitCsv (TURN_URLS env) ≠ [] →
  trim (or_default (TURN_USERNAME env) EmptyString) ≠ EmptyString →
  trim (or_default (TURN_CREDENTIAL env) EmptyString) ≠ EmptyString →
  let username := trim (or_default (TURN_USERNAME env) EmptyString) in
  let credential := trim (or_default (TURN_CREDENTIAL env) EmptyString) in
  let turn := JObj [("urls", JArr (map JStr (splitCsv (TURN_URLS env))));
                    ("username", JStr username);
                    ("credential", JStr credential)] in
  let stun := match splitCsv (STUN_URLS env) with
              | [] => []
              | _ :: _ => [JObj [("urls", JArr (map JStr (splitCsv (STUN_URLS env))))]]
              end in
  fetch now req env
  = {| status := 200;
       headers := json_headers (corsHeaders (cors_origin env));
       body := Some (stringify (JObj [("iceServers", JArr (stun ++ [turn]))])) |}
  ∧ stringify turn
    = (wire "{'urls':" ++ stringify (JArr (map JStr (splitCsv (TURN_URLS env))))
       ++ wire ",'username':" ++ quote username
       ++ wire ",'credential':" ++ quote credential ++ "}")%string.
Proof.
  intros Hl Hu Hn Hc username credential turn stun.
  split; [|apply turn_entry_text].
  rewrite (fetch_let_through _ _ _ Hl). cbn zeta. unfold ice_body, turn_entry.
  destruct (splitCsv (TURN_URLS env)); [done|].
  apply nonempty_true in Hn, Hc. rewrite Hn, Hc. cbn [negb orb].
  by rewrite Hn, Hc.
Qed.

Lemma static_credentials_win_witness :
  let resp := fetch 0 (mkRequest "GET" "/turn" (Some "https://game.example")) static_env in
  status resp = 200%nat
  ∧ body resp
    = Some (wire ("{'iceServers':[{'urls':['turn:a.example:3478'],"
                  ++ "'username':'alice','credential':'pa55'}]}")).
Proof.
  cbv zeta.
  rewrite (proj1 (static_credentials_win 0
             (mkRequest "GET" "/turn" (Some "https://game.example")) static_env
             ltac:(split; [reflexivity|]; split; [reflexivity|]; right; reflexivity)
             ltac:(vm_compute; discriminate)
             ltac:(vm_compute; discriminate)
             ltac:(vm_compute; discriminate))).
  split; reflexivity.
Defined.

(** X15: with no complete static pair and no shared secret, the request
    is answered 500 with a JSON error naming the settings to provide, and
    no ICE server list. *)
Theorem no_credentials_is_an_error (now : Z) (req : Request) (env : Env) :
  let_through req env →
  splitCsv (TURN_URLS env) ≠ [] →
  (trim (or_default (TURN_USERNAME env) EmptyString) = EmptyString
   ∨ trim (or_default (TURN_CREDENTIAL env) EmptyString) = EmptyString) →
  trim (or_default (TURN_SHARED_SECRET env) EmptyString) = EmptyString →
  fetch now req env
  = {| status := 500;
       headers := json_headers (corsHeaders (cors_origin env));
       body := error_body "Set TURN_USERNAME + TURN_CREDENTIAL or TURN_SHARED_SECRET" |}.
Proof.
  intros Hl Hu Hst Hs. rewrite (fetch_let_through _ _ _ Hl). cbn zeta.
  destruct (splitCsv (TURN_URLS env)); [done|]. rewrite Hs. cbn [nonempty].
  destruct Hst as [E|E]; rewrite E; cbn [nonempty negb orb]; [done|].
  destruct (nonempty (trim (or_default (TURN_USERNAME env) EmptyString))) eqn:En;
    cbn [negb orb nonempty]; rewrite ?En; reflexivity.
Qed.

Lemma no_credentials_is_an_error_witness :
  status (fetch 0 (mkRequest "GET" "/turn" None)
            {| ALLOWED_ORIGIN := None; TURN_URLS := Some "turn:a.example";
               STUN_URLS := None; TOKEN_TTL_SECONDS := None;
               TURN_USERNAME := Some "alice"; TURN_CREDENTIAL := Some "   ";
               TURN_SHARED_SECRET := None; TURN_USERNAME_PREFIX := None |})
  = 500%nat.
Proof.
  rewrite no_credentials_is_an_error.
  - reflexivity.
  - split; [reflexivity|]. split; [reflexivity|]. left. reflexivity.
  - vm_compute. discriminate.
  - right. reflexivity.
  - reflexivity.
Defined.

(** X16: the list of TURN URLs is checked before any credential: when it
    has no entry after splitting, trimming and dropping empty items, the
    answer is 500 with the error [TURN_URLS is empty], whatever
    credentials or secret are configured. *)
Theorem no_turn_urls_is_an_error (now : Z) (req : Request) (env : Env) :
  let_through req env →
  splitCsv (TURN_URLS env) = [] →
  fetch now req env
  = {| status := 500;
       headers := json_headers (corsHeaders (cors_origin env));
       body := error_body "TURN_URLS is empty" |}.
Proof.
  intros Hl Hu. rewrite (fetch_let_through _ _ _ Hl). cbn zeta. by rewrite Hu.
Qed.

Lemma no_turn_urls_is_an_error_witness :
  status (fetch 0 (mkRequest "GET" "/turn" None)
            {| ALLOWED_ORIGIN := None; TURN_URLS := Some " , ,";
               STUN_URLS := None; TOKEN_TTL_SECONDS := None;
               TURN_USERNAME := Some "alice"; TURN_CREDENTIAL := Some "pa55";
               TURN_SHARED_SECRET := Some "s3cret"; TURN_USERNAME_PREFIX := None |})
  = 500%nat.
Proof.
  rewrite no_turn_urls_is_an_error.
  - reflexivity.
  - split; [reflexivity|]. split; [reflexivity|]. left. reflexivity.
  - reflexivity.
Defined.

(** X17: the checks of [fetch] come in a fixed order.  A preflight is
    answered 200 with the CORS headers and no body whatever the path and
    origin; any other method than GET is answered 405; a GET of another
    path 404; a GET of [/turn] from an origin other than the configured
    one 403.  The three refusals are plain text: their only header is
    the content type that a text body gets, and they carry no CORS
    header. *)
Theorem request_gate (now : Z) (req : Request) (env : Env) :
  let plain := [("Content-Type", "text/plain;charset=UTF-8")] in
  (method req = "OPTIONS" →
     fetch now req env
     = {| status := 200; headers := corsHeaders (cors_origin env); body := None |})
  ∧ (method req ≠ "OPTIONS" → method req ≠ "GET" →
     fetch now req env
     = {| status := 405; headers := plain; body := Some "Method not allowed" |})
  ∧ (method req = "GET" → pathname req ≠ "/turn" →
     fetch now req env = {| status := 404; headers := plain; body := Some "Not found" |})
  ∧ (method req = "GET" → pathname req = "/turn" →
     cors_origin env ≠ "*" → or_default (origin req) EmptyString ≠ cors_origin env →
     fetch now req env = {| status := 403; headers := plain; body := Some "Forbidden" |}).
Proof.
  cbv zeta. unfold cors_origin.
  assert ((if String.eqb (or_default (ALLOWED_ORIGIN env) "*") "*" then "*"
           else or_default (ALLOWED_ORIGIN env) "*")
          = or_default (ALLOWED_ORIGIN env) "*") as Hc.
  { destruct (String.eqb _ _) eqn:E; [|done]. by apply String.eqb_eq in E. }
  split; [|split; [|split]].
  - intros Hm. unfold fetch. rewrite Hm, Hc. reflexivity.
  - intros H1 H2. unfold fetch.
    apply String.eqb_neq in H1, H2. by rewrite H1, H2.
  - intros Hm Hp. unfold fetch. rewrite Hm.
    apply String.eqb_neq in Hp. by rewrite Hp.
  - intros Hm Hp Ha Ho. unfold fetch. rewrite Hm, Hp.
    apply String.eqb_neq in Ha, Ho. by rewrite Ha, Ho.
Qed.

Lemma request_gate_witness :
  fetch 0 (mkRequest "OPTIONS" "/anything" (Some "https://evil.example")) static_env
  = {| status := 200; headers := corsHeaders "https://game.example"; body := None |}
  ∧ fetch 0 (mkRequest "POST" "/turn" (Some "https://game.example")) static_env
    = {| status := 405; headers := [("Content-Type", "text/plain;charset=UTF-8")];
         body := Some "Method not allowed" |}
  ∧ fetch 0 (mkRequest "GET" "/" (Some "https://game.example")) static_env
    = {| status := 404; headers := [("Content-Type", "text/plain;charset=UTF-8")];
         body := Some "Not found" |}
  ∧ fetch 0 (mkRequest "GET" "/turn" None) static_env
    = {| status := 403; headers := [("Content-Type", "text/plain;charset=UTF-8")];
         body := Some "Forbidden" |}.
Proof.
  split; [|split; [|split]].
  - rewrite (proj1 (request_gate 0 _ static_env)); reflexivity.
  - rewrite (proj1 (proj2 (request_gate 0 _ static_env))); [reflexivity|discriminate..].
  - rewrite (proj1 (proj2 (proj2 (request_gate 0 _ static_env))));
      [reflexivity|reflexivity|discriminate].
  - rewrite (proj2 (proj2 (proj2 (request_gate 0 _ static_env))));
      [reflexivity|reflexivity|reflexivity|discriminate|discriminate].
Defined.

Lemma headers_cases now req env :
  headers (fetch now req env) = []
  ∨ headers (fetch now req env) = [("Content-Type", "text/plain;charset=UTF-8")]
  ∨ headers (fetch now req env) = corsHeaders (cors_origin env)
  ∨ headers (fetch now req env) = json_headers (corsHeaders (cors_origin env)).
Proof.
  unfold cors_origin.
  assert ((if String.eqb (or_default (ALLOWED_ORIGIN env) "*") "*" then "*"
           else or_default (ALLOWED_ORIGIN env) "*")
          = or_default (ALLOWED_ORIGIN env) "*") as Hc.
  { destruct (String.eqb _ _) eqn:E; [|done]. by apply String.eqb_eq in E. }
  unfold fetch. rewrite Hc.
  destruct (String.eqb (method req) "OPTIONS"); [auto|].
  destruct (negb (String.eqb (method req) "GET")); [auto|].
  destruct (negb (String.eqb (pathname req) "/turn")); [auto|].
  destruct (_ && _); [auto|].
  destruct (splitCsv (TURN_URLS env)); [auto|].
  destruct (if _ || _ then _ else _) as [[u c]|]; [|auto].
  destruct (_ || _); auto.
Qed.

(** X18: the worker never reflects the caller's origin.  Whatever the
    request, an [Access-Control-Allow-Origin] header of the answer holds
    the configured origin, or the wildcard when none is configured. *)
Theorem cors_origin_is_configured (now : Z) (req : Request) (env : Env) (v : string) :
  ("Access-Control-Allow-Origin", v) ∈ headers (fetch now req env) →
  v = cors_origin env.
Proof.
  intros H.
  assert (("Access-Control-Allow-Origin", v) ∈ corsHeaders (cors_origin env)
          → v = cors_origin env) as Hcors.
  { unfold corsHeaders. intros Hin.
    repeat (apply elem_of_cons in Hin as [Hin|Hin]; [by injection Hin|]).
    by apply not_elem_of_nil in Hin. }
  destruct (headers_cases now req env) as [E|[E|[E|E]]]; rewrite E in H.
  - by apply not_elem_of_nil in H.
  - apply list_elem_of_singleton in H. by injection H.
  - by apply Hcors.
  - unfold json_headers in H. apply elem_of_cons in H as [H|H]; [by injection H|].
    by apply Hcors.
Qed.

Lemma cors_origin_is_configured_witness :
  headers (fetch 0 (mkRequest "OPTIONS" "/turn" (Some "https://evil.example")) static_env)
  = corsHeaders "https://game.example"
  ∧ cors_origin static_env = "https://game.example".
Proof.
  split; [reflexivity|].
  symmetry.
  apply (cors_origin_is_configured 0
           (mkRequest "OPTIONS" "/turn" (Some "https://evil.example")) static_env).
  vm_compute. apply list_elem_of_here.
Defined.

(** X19: the clock is read to the second.  Two calls whose clock values
    fall in the same epoch second get the same answer, derived credentials
    included. *)
Theorem same_second_same_answer (now1 now2 : Z) (req : Request) (env : Env) :
  (now1 / 1000 = now2 / 1000)%Z →
  fetch now1 req env = fetch now2 req env.
Proof. intros H. unfold fetch. by rewrite H. Qed.

Lemma same_second_same_answer_witness :
  fetch 1700000000001 (mkRequest "GET" "/turn" None) sample_env
  = fetch 1700000000999 (mkRequest "GET" "/turn" None) sample_env.
Proof.
  apply (same_second_same_answer 1700000000001 1700000000999).
  reflexivity.
Defined.

(** *** [splitCsv] *)

Lemma trimStart_clean s : starts_clean (trimStart s).
Proof.
  induction s as [|c s IH]; simpl; [done|].
  destruct (is_space c) eqn:E; [done|]. by simpl.
Qed.

Lemma trimStart_id s : starts_clean s → trimStart s = s.
Proof. destruct s as [|c s]; simpl; [done|]. by intros ->. Qed.

Lemma trimEnd_clean s : starts_clean s → starts_clean (trimEnd s).
Proof.
  destruct s as [|c s]; simpl; [done|]. intros Hc.
  destruct (trimEnd s); by rewrite ?Hc.
Qed.

Lemma trimEnd_idem s : trimEnd (trimEnd s) = trimEnd s.
Proof.
  induction s as [|c s IH]; simpl; [done|].
  destruct (trimEnd s) as [|x r] eqn:E.
  - destruct (is_space c) eqn:Ec; simpl; [done|]. by rewrite Ec.
  - change (trimEnd (String c (String x r))) with
      (match trimEnd (String x r) with
       | EmptyString => if is_space c then EmptyString else String c EmptyString
       | r' => String c r'
       end).
    by rewrite IH.
Qed.

Lemma trim_idem s : trim (trim s) = trim s.
Proof.
  unfold trim.
  rewrite (trimStart_id (trimEnd (trimStart s))).
  - apply trimEnd_idem.
  - apply trimEnd_clean, trimStart_clean.
Qed.

Lemma split_segments sep s seg :
  seg ∈ split sep s → Relay.each_char (λ c, c ≠ sep) seg.
Proof.
  revert seg. induction s as [|c s IH]; intros seg; simpl.
  - by intros ->%list_elem_of_singleton.
  - destruct (Ascii.eqb c sep) eqn:E.
    + intros [->|H]%elem_of_cons; [done|by apply IH].
    + apply Ascii.eqb_neq in E.
      destruct (split sep s) as [|x xs].
      * by intros ->%list_elem_of_singleton.
      * intros [->|H]%elem_of_cons.
        -- simpl. split; [done|]. apply IH, list_elem_of_here.
        -- apply IH. by apply list_elem_of_further.
Qed.

Lemma trimStart_each P s : Relay.each_char P s → Relay.each_char P (trimStart s).
Proof.
  induction s as [|c s IH]; simpl; [done|]. intros [Hc Hs].
  destruct (is_space c); [by apply IH|by simpl].
Qed.

Lemma trimEnd_each P s : Relay.each_char P s → Relay.each_char P (trimEnd s).
Proof.
  induction s as [|c s IH]; simpl; [done|]. intros [Hc Hs].
  specialize (IH Hs). destruct (trimEnd s) as [|x r].
  - destruct (is_space c); by simpl.
  - by simpl.
Qed.

(** X20: every entry of a parsed comma list is non-empty, carries no
    white space at either end ([trim] leaves it alone) and holds no comma;
    blank items are dropped. *)
Theorem splitCsv_entries (value : option string) (x : string) :
  x ∈ splitCsv value →
  x ≠ EmptyString ∧ trim x = x ∧ Relay.each_char (λ c, c ≠ ","%char) x.
Proof.
  unfold splitCsv. intros [Hne Hin]%list_elem_of_filter.
  apply list_elem_of_fmap in Hin as (seg & -> & Hseg).
  split; [by apply nonempty_true|]. split; [apply trim_idem|].
  unfold trim. apply trimEnd_each, trimStart_each.
  by apply (split_segments _ _ _ Hseg).
Qed.

Lemma splitCsv_entries_witness :
  splitCsv (Some " turn:a.example , ,turns:b.example,") = ["turn:a.example"; "turns:b.example"]
  ∧ trim "turns:b.example" = "turns:b.example".
Proof.
  split; [reflexivity|].
  apply (splitCsv_entries (Some " turn:a.example , ,turns:b.example,") "turns:b.example").
  vm_compute. apply list_elem_of_further, list_elem_of_here.
Defined.

(** *** The derived credential *)

Lemma btoa_length_aux n : ∀ raw, (String.length raw < n)%nat →
  String.length (btoa raw) = (4 * ((String.length raw + 2) / 3))%nat.
Proof.
  induction n as [|n IH]; intros raw Hn; [lia|].
  destruct raw as [|x [|y [|z rest]]]; [reflexivity..|].
  change (btoa (String x (String y (String z rest))))
    with (let b c := Z.of_nat (code c) in
          let d k := base64_digit (Z.land k 63) in
          let k := Z.lor (Z.lor (Z.shiftl (b x) 16) (Z.shiftl (b y) 8)) (b z) in
          String (d (Z.shiftr k 18)) (String (d (Z.shiftr k 12))
            (String (d (Z.shiftr k 6)) (String (d k) (btoa rest))))).
  cbv zeta. cbn [String.length] in *.
  rewrite IH by lia.
  replace (S (S (S (String.length rest))) + 2)%nat
    with (String.length rest + 2 + 1 * 3)%nat by lia.
  rewrite Nat.div_add by lia. lia.
Qed.

Lemma btoa_length raw :
  String.length (btoa raw) = (4 * ((String.length raw + 2) / 3))%nat.
Proof. apply (btoa_length_aux (S (String.length raw))). lia. Qed.

Lemma fromCharCodes_length bytes : String.length (fromCharCodes bytes) = length bytes.
Proof. induction bytes as [|b bs IH]; simpl; [done|]. by rewrite IH. Qed.

Lemma base64_charb_ok c : base64_charb c = true → base64_char c.
Proof.
  unfold base64_charb, base64_char. cbv zeta.
  rewrite !orb_true_iff, !andb_true_iff, !Nat.leb_le, !Nat.eqb_eq. tauto.
Qed.

Lemma base64_digits_ok :
  forallb (λ k, base64_charb (base64_digit (Z.of_nat k))) (seq 0 64) = true.
Proof. vm_compute. reflexivity. Qed.

Lemma base64_digit_char k : base64_char (base64_digit (Z.land k 63)).
Proof.
  assert (0 <= Z.land k 63 < 64)%Z as Hk.
  { change 63%Z with (Z.ones 6). rewrite Z.land_ones by lia.
    apply Z.mod_pos_bound. lia. }
  revert Hk. generalize (Z.land k 63). intros m Hm.
  apply base64_charb_ok.
  rewrite <- (Z2Nat.id m) by lia.
  apply (proj1 (forallb_forall _ _) base64_digits_ok (Z.to_nat m)).
  apply in_seq. lia.
Qed.

Lemma btoa_alphabet_aux n : ∀ raw, (String.length raw < n)%nat →
  Relay.each_char base64_char (btoa raw).
Proof.
  assert (base64_char "="%char) as Heq by (by apply base64_charb_ok).
  induction n as [|n IH]; intros raw Hn; [lia|].
  destruct raw as [|x [|y [|z rest]]].
  - done.
  - cbn [btoa Relay.each_char]. repeat split; try apply base64_digit_char; done.
  - cbn [btoa Relay.each_char]. repeat split; try apply base64_digit_char; done.
  - change (btoa (String x (String y (String z rest))))
      with (let b c := Z.of_nat (code c) in
            let d k := base64_digit (Z.land k 63) in
            let k := Z.lor (Z.lor (Z.shiftl (b x) 16) (Z.shiftl (b y) 8)) (b z) in
            String (d (Z.shiftr k 18)) (String (d (Z.shiftr k 12))
              (String (d (Z.shiftr k 6)) (String (d k) (btoa rest))))).
    cbv zeta. cbn [Relay.each_char String.length] in *.
    repeat split; try apply base64_digit_char. apply IH. lia.
Qed.

(** X21: with a secret of at least one character [hmacSha1Base64]
    resolves, and its value has the shape of the base64 text of a
    twenty-byte signature: twenty-eight characters, each a letter, a
    digit, [+], [/] or the padding sign, whatever the message.  With the
    empty secret the key import raises and the promise rejects. *)
Theorem credential_shape (secret message : string) :
  (secret = EmptyString → hmacSha1Base64 secret message = None)
  ∧ (secret ≠ EmptyString →
     ∃ c, hmacSha1Base64 secret message = Some c
          ∧ String.length c = 28
          ∧ Relay.each_char base64_char c).
Proof.
  split; [by intros ->|]. intros Hs.
  rewrite (hmacSha1Base64_resolves secret message Hs).
  eexists. split; [reflexivity|]. split.
  - by rewrite btoa_length, fromCharCodes_length, hmac_sha1_length.
  - apply (btoa_alphabet_aux (S (String.length (fromCharCodes
             (hmac_sha1 (encode secret) (encode message)))))). lia.
Qed.

Lemma credential_shape_witness :
  hmacSha1Base64 EmptyString "1700000600:ink-soccer" = None
  ∧ ∃ c, hmacSha1Base64 "s3cret" "1700000600:ink-soccer" = Some c
         ∧ String.length c = 28
         ∧ c = "Z7CknvACLbBuvdE+EKLXJBc/eFk=".
Proof.
  split.
  - apply (proj1 (credential_shape EmptyString "1700000600:ink-soccer")). reflexivity.
  - destruct (proj2 (credential_shape "s3cret" "1700000600:ink-soccer")
                ltac:(discriminate)) as (c & Hc & Hl & _).
    exists c. split; [exact Hc|]. split; [exact Hl|].
    vm_compute in Hc. by injection Hc as <-.
Defined.

(** The rejection never leaves [fetch]: the worker signs only with a
    secret that is non-empty once trimmed, so no input makes it answer
    with the value kept for a rejected promise. *)
Lemma fetch_never_rejects now req env : fetch now req env ≠ uncaught.
Proof.
  unfold fetch.
  destruct (String.eqb (method req) "OPTIONS"); [done|].
  destruct (negb (String.eqb (method req) "GET")); [done|].
  destruct (negb (String.eqb (pathname req) "/turn")); [done|].
  destruct (_ && _); [done|].
  destruct (splitCsv (TURN_URLS env)); [done|].
  destruct (_ || _).
  - destruct (nonempty (trim (or_default (TURN_SHARED_SECRET env) EmptyString))) eqn:Es.
    + apply nonempty_true in Es. rewrite (hmacSha1Base64_resolves _ _ Es).
      by destruct (_ || _).
    + by destruct (_ || _).
  - by destruct (_ || _).
Qed.

End TurnMore.
